(** * whisp-ws-server: room registry and signaling router

    A shallow embedding of [src/modules/RoomManager.js],
    [src/modules/SignalingHandler.js] and [src/constants/index.js].

    JavaScript's [Map] and [Set] iterate in insertion order, and that order
    is observable here ([getUserRoom] returns the first room found,
    [_sanitizeRoom] copies the member set with [Array.from]), so both are
    modelled as lists: a [Set] of strings as a duplicate-free list, a [Map]
    as an association list in insertion order. *)

From Stdlib Require Import String List Bool Arith ZArith Lia.
Import ListNotations.
Open Scope string_scope.

(** ** JavaScript values the code tests or stores *)

(** [if (s)] on a string: only the empty string is falsy. *)
Definition truthy (s : string) : bool := negb (String.eqb s "").

(** [if (x)] on a value that is a string, [null] or [undefined]. *)
Definition truthy_opt (x : option string) : bool :=
  match x with
  | Some s => truthy s
  | None => false
  end.

(** Negotiation payloads (offer, answer, candidate, media state) are opaque to
    the server: whatever JSON value the client sent. *)
#[local] Unset Elimination Schemes.
Inductive Json : Type :=
| JUndefined
| JNull
| JBool (b : bool)
| JNum (n : Z)
| JStr (s : string)
| JArr (items : list Json)
| JObj (fields : list (string * Json)).
#[local] Set Elimination Schemes.

(** [new Date()]: milliseconds since the epoch, read from the clock. *)
Definition Date := Z.

(** ** constants/index.js *)
Module Constants.

Module SOCKET_EVENTS.
Definition CONNECTION := "connection".
Definition DISCONNECT := "disconnect".
Definition LEAVE_ROOM := "leave-room".
Definition ROOM_CREATED := "room-created".
Definition USER_JOINED := "user-joined".
Definition USER_LEFT := "user-left".
Definition JOIN_ERROR := "join-error".
Definition OFFER := "offer".
Definition ANSWER := "answer".
Definition ICE_CANDIDATE := "ice-candidate".
Definition MEDIA_STATE_CHANGE := "media-state-change".
Definition CALL_ENDED := "call-ended".
End SOCKET_EVENTS.

Module ROOM_CONFIG.
Definition MAX_USERS_DEFAULT : nat := 2.
Definition CLEANUP_TIMEOUT : Z := 30000%Z.
End ROOM_CONFIG.

Module ERROR_MESSAGES.
Definition ROOM_FULL := "Room is full".
Definition ROOM_NOT_FOUND := "Room not found".
Definition INVALID_ROOM_ID := "Invalid room ID".
Definition USER_NOT_FOUND := "User not found".
End ERROR_MESSAGES.

End Constants.
Import Constants.

(** ** [Set] of strings, in insertion order *)
Module JsSet.

Definition t := list string.

Definition empty : t := [].

Definition has (x : string) (s : t) : bool :=
  existsb (String.eqb x) s.

(** [s.add(x)]: appended when new, otherwise the set is left as it is. *)
Definition add (x : string) (s : t) : t :=
  if has x s then s else (s ++ [x])%list.

(** [s.delete(x)]. *)
Definition delete (x : string) (s : t) : t :=
  filter (fun y => negb (String.eqb x y)) s.

Definition size (s : t) : nat := length s.

(** [Array.from(s)]. *)
Definition to_array (s : t) : list string := s.

End JsSet.

(** ** [Map] with string keys, in insertion order *)
Module JsMap.

Definition t (V : Type) := list (string * V).

Definition empty {V} : t V := [].

Fixpoint get {V} (k : string) (m : t V) : option V :=
  match m with
  | [] => None
  | (k', v) :: rest => if String.eqb k k' then Some v else get k rest
  end.

Definition has {V} (k : string) (m : t V) : bool :=
  match get k m with
  | Some _ => true
  | None => false
  end.

(** [m.set(k, v)]: an existing key keeps its place, a new key goes last. *)
Fixpoint set {V} (k : string) (v : V) (m : t V) : t V :=
  match m with
  | [] => [(k, v)]
  | (k', v') :: rest =>
      if String.eqb k k' then (k, v) :: rest else (k', v') :: set k v rest
  end.

(** [m.delete(k)]. *)
Definition delete {V} (k : string) (m : t V) : t V :=
  filter (fun kv => negb (String.eqb k (fst kv))) m.

Definition keys {V} (m : t V) : list string := map fst m.

Definition values {V} (m : t V) : list V := map snd m.

Definition size {V} (m : t V) : nat := length m.

End JsMap.

(** ** modules/RoomManager.js *)
Module RoomManager.

(** A room object as [createRoom] builds it. *)
Record Room : Type := mkRoom {
  id : string;
  users : JsSet.t;
  createdAt : Date;
  maxUsers : nat
}.

(** What [_sanitizeRoom] returns: a copy, no live reference to the set. *)
Record RoomInfo : Type := mkRoomInfo {
  info_id : string;
  info_users : list string;
  info_userCount : nat;
  info_maxUsers : nat;
  info_createdAt : Date
}.

(** The entries of [getAllRooms]: no member list. *)
Record RoomSummary : Type := mkRoomSummary {
  sum_id : string;
  sum_userCount : nat;
  sum_maxUsers : nat;
  sum_createdAt : Date
}.

(** [this.rooms]. *)
Definition Rooms := JsMap.t Room.

(** The three shapes [joinRoom] and [leaveRoom] return: [null], the object
    [{ error }], or a sanitized room. *)
Inductive Result : Type :=
| Null
| Error (error : string)
| Sanitized (room : RoomInfo).

Definition _sanitizeRoom (room : Room) : RoomInfo :=
  {| info_id := id room;
     info_users := JsSet.to_array (users room);
     info_userCount := JsSet.size (users room);
     info_maxUsers := maxUsers room;
     info_createdAt := createdAt room |}.

(** The object literal of [createRoom]. *)
Definition newRoom (roomId : string) (now : Date) : Room :=
  {| id := roomId;
     users := JsSet.empty;
     createdAt := now;
     maxUsers := ROOM_CONFIG.MAX_USERS_DEFAULT |}.

(** [room.users.add(userId)] on the room object the map holds. *)
Definition addUser (userId : string) (room : Room) : Room :=
  {| id := id room;
     users := JsSet.add userId (users room);
     createdAt := createdAt room;
     maxUsers := maxUsers room |}.

(** [room.users.delete(userId)] on the room object the map holds. *)
Definition deleteUser (userId : string) (room : Room) : Room :=
  {| id := id room;
     users := JsSet.delete userId (users room);
     createdAt := createdAt room;
     maxUsers := maxUsers room |}.

(** [createRoom(roomId, userId)]; [now] is what [new Date()] reads when the
    room is new. [None] stands for the [TypeError] that [room.users] would
    raise were [this.rooms.get(roomId)] undefined. *)
Definition createRoom (now : Date) (roomId userId : string) (rooms : Rooms)
  : Rooms * option RoomInfo :=
  let rooms1 :=
    if negb (JsMap.has roomId rooms)
    then JsMap.set roomId (newRoom roomId now) rooms
    else rooms in
  match JsMap.get roomId rooms1 with
  | Some room =>
      let room' := addUser userId room in
      (JsMap.set roomId room' rooms1, Some (_sanitizeRoom room'))
  | None => (rooms1, None)
  end.

(** [joinRoom(roomId, userId)]. *)
Definition joinRoom (roomId userId : string) (rooms : Rooms)
  : Rooms * Result :=
  match JsMap.get roomId rooms with
  | None => (rooms, Null)
  | Some room =>
      if Nat.leb (maxUsers room) (JsSet.size (users room))
      then (rooms, Error ERROR_MESSAGES.ROOM_FULL)
      else
        let room' := addUser userId room in
        (JsMap.set roomId room' rooms, Sanitized (_sanitizeRoom room'))
  end.

(** [leaveRoom(roomId, userId)]. *)
Definition leaveRoom (roomId userId : string) (rooms : Rooms)
  : Rooms * Result :=
  match JsMap.get roomId rooms with
  | None => (rooms, Null)
  | Some room =>
      let room' := deleteUser userId room in
      let rooms1 := JsMap.set roomId room' rooms in
      if Nat.eqb (JsSet.size (users room')) 0
      then (JsMap.delete roomId rooms1, Null)
      else (rooms1, Sanitized (_sanitizeRoom room'))
  end.

Definition getRoomUsers (roomId : string) (rooms : Rooms) : list string :=
  match JsMap.get roomId rooms with
  | Some room => JsSet.to_array (users room)
  | None => []
  end.

(** [getUserRoom(userId)]: the first room, in map order, that has the user. *)
Fixpoint getUserRoom (userId : string) (rooms : Rooms) : option string :=
  match rooms with
  | [] => None
  | (roomId, room) :: rest =>
      if JsSet.has userId (users room) then Some roomId
      else getUserRoom userId rest
  end.

Definition getRoomInfo (roomId : string) (rooms : Rooms) : option RoomInfo :=
  match JsMap.get roomId rooms with
  | Some room => Some (_sanitizeRoom room)
  | None => None
  end.

Definition getAllRooms (rooms : Rooms) : list RoomSummary :=
  map (fun room =>
         {| sum_id := id room;
            sum_userCount := JsSet.size (users room);
            sum_maxUsers := maxUsers room;
            sum_createdAt := createdAt room |})
      (JsMap.values rooms).

Definition roomExists (roomId : string) (rooms : Rooms) : bool :=
  JsMap.has roomId rooms.

Definition getRoomCount (rooms : Rooms) : nat := JsMap.size rooms.

(** *** Sequences of registry calls *)

Inductive Op : Type :=
| OpCreate (now : Date) (roomId userId : string)
| OpJoin (roomId userId : string)
| OpLeave (roomId userId : string).

Definition target (op : Op) : string :=
  match op with
  | OpCreate _ roomId _ => roomId
  | OpJoin roomId _ => roomId
  | OpLeave roomId _ => roomId
  end.

Definition step (op : Op) (rooms : Rooms) : Rooms :=
  match op with
  | OpCreate now roomId userId => fst (createRoom now roomId userId rooms)
  | OpJoin roomId userId => fst (joinRoom roomId userId rooms)
  | OpLeave roomId userId => fst (leaveRoom roomId userId rooms)
  end.

(** The registry after a sequence of calls on [new RoomManager()]. *)
Definition run (ops : list Op) : Rooms :=
  fold_left (fun rooms op => step op rooms) ops JsMap.empty.

Inductive reachable : Rooms -> Prop :=
| reach_new : reachable JsMap.empty
| reach_step : forall op rooms, reachable rooms -> reachable (step op rooms).

(** *** Properties of a registry state, as boolean checks *)

Definition within_capacity (room : Room) : bool :=
  Nat.leb (JsSet.size (users room)) (maxUsers room).

Definition capacity_ok (rooms : Rooms) : bool :=
  forallb within_capacity (JsMap.values rooms).

Definition non_empty (room : Room) : bool :=
  Nat.leb 1 (JsSet.size (users room)).

Definition no_empty_room (rooms : Rooms) : bool :=
  forallb non_empty (JsMap.values rooms).

(** What every entry of a registry built by the three operations satisfies:
    stored under its own id, at least one member, the default capacity. *)
Definition entry_ok (entry : string * Room) : Prop :=
  id (snd entry) = fst entry
  /\ 1 <= JsSet.size (users (snd entry))
  /\ maxUsers (snd entry) = ROOM_CONFIG.MAX_USERS_DEFAULT.

End RoomManager.

(** ** modules/SignalingHandler.js *)
Module SignalingHandler.
Import RoomManager.

(** Inbound messages whose payload is an object, with the fields each
    listener destructures from it ([roomId] a string). A missing
    [targetUserId] is [undefined], here [None]. An event that arrives with no
    payload at all is not a [Message]: see [Server.Packet]. *)
Inductive Message : Type :=
| CreateRoomMsg (roomId : string)
| JoinRoomMsg (roomId : string)
| OfferMsg (roomId : string) (offer : Json) (targetUserId : option string)
| AnswerMsg (roomId : string) (answer : Json) (targetUserId : option string)
| IceCandidateMsg (roomId : string) (candidate : Json)
                  (targetUserId : option string)
| MediaStateChangeMsg (roomId : string) (mediaState : Json)
| EndCallMsg (roomId : string).

(** The object literals the handlers emit. *)
Inductive Payload : Type :=
| JoinErrorData (error : string)
| UserJoinedData (roomId userId : string) (users : list string)
| RoomCreatedData (roomId userId : string) (users : list string)
| UserLeftData (userId roomId : string)
| OfferData (offer : Json) (fromUserId : string)
| AnswerData (answer : Json) (fromUserId : string)
| CandidateData (candidate : Json) (fromUserId : string)
| MediaStateData (userId : string) (mediaState : Json)
| CallEndedData (userId : string).

(** Where an emission is addressed: [socket.emit] (the socket itself),
    [socket.to(name).emit] (the group [name], the socket left out),
    [io.to(name).emit] (the whole group [name]). *)
Inductive Target : Type :=
| ToSelf (socketId : string)
| SocketTo (socketId name : string)
| IoTo (name : string).

(** Calls into the transport, and an uncaught exception ending a handler. *)
Inductive Action : Type :=
| SocketJoin (socketId roomId : string)
| Emit (to : Target) (event : string) (data : Payload)
| Throw.

(** The handler's fields: the shared room manager and [userSockets]
    (socket id to socket; a socket is known here by its id). *)
Record State : Type := mkState {
  roomManager : Rooms;
  userSockets : JsMap.t string
}.

Definition init : State :=
  {| roomManager := JsMap.empty; userSockets := JsMap.empty |}.

Definition withRooms (st : State) (rooms : Rooms) : State :=
  {| roomManager := rooms; userSockets := userSockets st |}.

(** [handleConnection(socket)], which the server calls once for a socket, on
    its connection event: the registration in [userSockets]. The three
    [_register...Events(socket)] calls attach one listener per event to the
    socket; here that wiring is the dispatch of [handleMessage] below, which
    runs one listener per packet. *)
Definition handleConnection (socketId : string) (st : State)
  : State * list Action :=
  ({| roomManager := roomManager st;
      userSockets := JsMap.set socketId socketId (userSockets st) |}, []).

(** [handleDisconnection(socket)]. [if (roomId)] is a truthiness test on
    what [getUserRoom] returned. *)
Definition handleDisconnection (socketId : string) (st : State)
  : State * list Action :=
  let roomId := getUserRoom socketId (roomManager st) in
  let '(rooms', actions) :=
    match roomId with
    | Some r =>
        if truthy r then
          let '(rooms1, _) := leaveRoom r socketId (roomManager st) in
          (rooms1,
           [Emit (SocketTo socketId r) SOCKET_EVENTS.USER_LEFT
                 (UserLeftData socketId r)])
        else (roomManager st, [])
    | None => (roomManager st, [])
    end in
  ({| roomManager := rooms';
      userSockets := JsMap.delete socketId (userSockets st) |}, actions).

(** The [CREATE_ROOM] listener. [result?.error] is truthy for the error
    object only; reading [result.users] of [null] throws. *)
Definition onCreateRoom (now : Date) (socketId roomId : string) (st : State)
  : State * list Action :=
  if roomExists roomId (roomManager st) then
    let '(rooms1, result) := joinRoom roomId socketId (roomManager st) in
    match result with
    | Error error =>
        (withRooms st rooms1,
         [Emit (ToSelf socketId) SOCKET_EVENTS.JOIN_ERROR
               (JoinErrorData error)])
    | Sanitized room =>
        (withRooms st rooms1,
         [SocketJoin socketId roomId;
          Emit (IoTo roomId) SOCKET_EVENTS.USER_JOINED
               (UserJoinedData roomId socketId (info_users room))])
    | Null => (withRooms st rooms1, [SocketJoin socketId roomId; Throw])
    end
  else
    let '(rooms1, created) := createRoom now roomId socketId (roomManager st) in
    match created with
    | Some room =>
        (withRooms st rooms1,
         [SocketJoin socketId roomId;
          Emit (ToSelf socketId) SOCKET_EVENTS.ROOM_CREATED
               (RoomCreatedData (info_id room) socketId (info_users room))])
    | None => (withRooms st rooms1, [Throw])
    end.

(** The [JOIN_ROOM] listener. *)
Definition onJoinRoom (now : Date) (socketId roomId : string) (st : State)
  : State * list Action :=
  let '(rooms1, result) := joinRoom roomId socketId (roomManager st) in
  let joined (rooms2 : Rooms) (room : RoomInfo) :=
    (withRooms st rooms2,
     [SocketJoin socketId roomId;
      Emit (IoTo roomId) SOCKET_EVENTS.USER_JOINED
           (UserJoinedData roomId socketId (info_users room))]) in
  match result with
  | Null =>
      let '(rooms2, created) := createRoom now roomId socketId rooms1 in
      match created with
      | Some room => joined rooms2 room
      | None => (withRooms st rooms2, [Throw])
      end
  | Error error =>
      (withRooms st rooms1,
       [Emit (ToSelf socketId) SOCKET_EVENTS.JOIN_ERROR
             (JoinErrorData error)])
  | Sanitized room => joined rooms1 room
  end.

(** [_forwardSignalingMessage(socket, event, data, roomId, targetUserId)].
    [if (targetUserId)] is a truthiness test. *)
Definition _forwardSignalingMessage (socketId event : string)
    (data : Payload) (roomId : string) (targetUserId : option string)
  : list Action :=
  match targetUserId with
  | Some t =>
      if truthy t then [Emit (SocketTo socketId t) event data]
      else [Emit (SocketTo socketId roomId) event data]
  | None => [Emit (SocketTo socketId roomId) event data]
  end.

(** The listeners of [_registerRoomEvents], [_registerWebRTCEvents] and
    [_registerMediaEvents], by message kind. *)
Definition handleMessage (now : Date) (socketId : string) (msg : Message)
    (st : State) : State * list Action :=
  match msg with
  | CreateRoomMsg roomId => onCreateRoom now socketId roomId st
  | JoinRoomMsg roomId => onJoinRoom now socketId roomId st
  | OfferMsg roomId offer targetUserId =>
      (st, _forwardSignalingMessage socketId SOCKET_EVENTS.OFFER
             (OfferData offer socketId) roomId targetUserId)
  | AnswerMsg roomId answer targetUserId =>
      (st, _forwardSignalingMessage socketId SOCKET_EVENTS.ANSWER
             (AnswerData answer socketId) roomId targetUserId)
  | IceCandidateMsg roomId candidate targetUserId =>
      (st, _forwardSignalingMessage socketId SOCKET_EVENTS.ICE_CANDIDATE
             (CandidateData candidate socketId) roomId targetUserId)
  | MediaStateChangeMsg roomId mediaState =>
      (st, [Emit (SocketTo socketId roomId) SOCKET_EVENTS.MEDIA_STATE_CHANGE
                 (MediaStateData socketId mediaState)])
  | EndCallMsg roomId =>
      (st, [Emit (SocketTo socketId roomId) SOCKET_EVENTS.CALL_ENDED
                 (CallEndedData socketId)])
  end.

(** What the server's [io.on(CONNECTION, ...)] block feeds the handler. *)
Inductive Event : Type :=
| Connected (socketId : string)
| Received (now : Date) (socketId : string) (msg : Message)
| Disconnected (socketId : string).

Definition handle (ev : Event) (st : State) : State * list Action :=
  match ev with
  | Connected socketId => handleConnection socketId st
  | Received now socketId msg => handleMessage now socketId msg st
  | Disconnected socketId => handleDisconnection socketId st
  end.

(** The state after a sequence of events, and every action taken. *)
Fixpoint runEvents (evs : list Event) (st : State) : State * list Action :=
  match evs with
  | [] => (st, [])
  | ev :: rest =>
      let '(st1, acts1) := handle ev st in
      let '(st2, acts2) := runEvents rest st1 in
      (st2, (acts1 ++ acts2)%list)
  end.

Inductive served : State -> Prop :=
| served_init : served init
| served_event : forall ev st, served st -> served (fst (handle ev st)).

(** *** Reading an action list *)

Definition isJoin (a : Action) : bool :=
  match a with SocketJoin _ _ => true | _ => false end.

Definition isEmit (a : Action) : bool :=
  match a with Emit _ _ _ => true | _ => false end.

Definition isEmitOf (event : string) (a : Action) : bool :=
  match a with Emit _ e _ => String.eqb e event | _ => false end.

(** Who receives an emission, given the transport's group table [members]
    (group name to the socket ids in it). The transport is Socket.IO, a
    dependency outside this repository; these are its three primitives as
    the handlers call them. *)
Definition recipients (members : string -> list string) (to : Target)
  : list string :=
  match to with
  | ToSelf socketId => [socketId]
  | SocketTo socketId name =>
      filter (fun x => negb (String.eqb x socketId)) (members name)
  | IoTo name => members name
  end.

(** What [getStats] returns. *)
Record Stats : Type := mkStats {
  connectedUsers : nat;
  totalRooms : nat;
  stats_rooms : list RoomSummary
}.

(** [getStats()]. *)
Definition getStats (st : State) : Stats :=
  {| connectedUsers := JsMap.size (userSockets st);
     totalRooms := getRoomCount (roomManager st);
     stats_rooms := getAllRooms (roomManager st) |}.

(** The body of the server's [GET /rooms] route: [{ rooms, count }] with
    [count] the length of the array [getAllRooms] returned. *)
Definition roomsRoute (st : State) : list RoomSummary * nat :=
  let rooms := getAllRooms (roomManager st) in
  (rooms, length rooms).

End SignalingHandler.

(** ** The transport's groups

    Socket.IO is a dependency, not code of this repository. What the
    handlers rely on is its table of groups ("rooms" of its adapter): a
    socket is put in the group named by its own id when it connects,
    [socket.join(name)] adds it to the group [name], and a socket that
    disconnects is taken out of every group. Socket ids and the names given
    to [socket.join] are keys of the same table. *)
Module Transport.
Import SignalingHandler.










End Transport.

(** ** server.js: what reaches the listeners *)
Module Server.
Import SignalingHandler.






End Server.

(** * Facts about the containers *)

Section JsSetFacts.

Lemma JsSet_has_In x s : JsSet.has x s = true <-> In x s.
Proof.
  unfold JsSet.has. rewrite existsb_exists. split.
  - intros [y [Hy Heq]]. apply String.eqb_eq in Heq. now subst.
  - intros H. exists x. split; [assumption | apply String.eqb_refl].
Qed.

Lemma JsSet_add_In x s : In x (JsSet.add x s).
Proof.
  unfold JsSet.add. destruct (JsSet.has x s) eqn:E.
  - now apply JsSet_has_In.
  - apply in_or_app. right. now left.
Qed.

Lemma JsSet_add_present x s : JsSet.has x s = true -> JsSet.add x s = s.
Proof. intros H. unfold JsSet.add. now rewrite H. Qed.

Lemma JsSet_add_has x s : JsSet.has x (JsSet.add x s) = true.
Proof. apply JsSet_has_In, JsSet_add_In. Qed.

Lemma JsSet_add_size x s :
  JsSet.size (JsSet.add x s) <= S (JsSet.size s)
  /\ 1 <= JsSet.size (JsSet.add x s).
Proof.
  unfold JsSet.add, JsSet.size. destruct (JsSet.has x s) eqn:E.
  - split; [lia |]. apply JsSet_has_In in E. destruct s; [contradiction | simpl; lia].
  - rewrite length_app. simpl. lia.
Qed.

Lemma JsSet_delete_absent x s : JsSet.has x s = false -> JsSet.delete x s = s.
Proof.
  unfold JsSet.has, JsSet.delete. induction s as [| y s IH]; simpl; [reflexivity |].
  intros H. apply orb_false_iff in H as [Hy Hs].
  rewrite Hy. simpl. now rewrite IH.
Qed.

Lemma JsSet_delete_size x s : JsSet.size (JsSet.delete x s) <= JsSet.size s.
Proof. unfold JsSet.size, JsSet.delete. apply filter_length_le. Qed.

Lemma JsSet_delete_has x s : JsSet.has x (JsSet.delete x s) = false.
Proof.
  destruct (JsSet.has x (JsSet.delete x s)) eqn:E; [| reflexivity].
  apply JsSet_has_In in E. unfold JsSet.delete in E.
  apply filter_In in E as [_ E]. now rewrite String.eqb_refl in E.
Qed.

Lemma JsSet_add_NoDup x s : NoDup s -> NoDup (JsSet.add x s).
Proof.
  intros Hs. unfold JsSet.add. destruct (JsSet.has x s) eqn:E; [assumption |].
  apply NoDup_app; [assumption | repeat constructor; intros [] |].
  intros a Ha Hx. destruct Hx as [<- | []].
  apply JsSet_has_In in Ha. congruence.
Qed.

Lemma JsSet_delete_NoDup x s : NoDup s -> NoDup (JsSet.delete x s).
Proof. apply NoDup_filter. Qed.

End JsSetFacts.

Section JsMapFacts.

Context {V : Type}.
Implicit Types (k : string) (v : V) (m : JsMap.t V).

Lemma JsMap_get_In k v m : JsMap.get k m = Some v -> In (k, v) m.
Proof.
  induction m as [| [k' v'] m IH]; simpl; [discriminate |].
  destruct (String.eqb k k') eqn:E.
  - intros [= ->]. apply String.eqb_eq in E. subst. now left.
  - intros H. right. now apply IH.
Qed.

Lemma JsMap_get_set_same k v m : JsMap.get k (JsMap.set k v m) = Some v.
Proof.
  induction m as [| [k' v'] m IH]; simpl.
  - now rewrite String.eqb_refl.
  - destruct (String.eqb k k') eqn:E; simpl.
    + now rewrite String.eqb_refl.
    + now rewrite E.
Qed.

Lemma JsMap_get_set_other k k' v m :
  k' <> k -> JsMap.get k' (JsMap.set k v m) = JsMap.get k' m.
Proof.
  intros Hne. induction m as [| [k0 v0] m IH]; simpl.
  - apply String.eqb_neq in Hne. now rewrite Hne.
  - destruct (String.eqb k k0) eqn:E; simpl.
    + apply String.eqb_eq in E. subst k0.
      apply String.eqb_neq in Hne. now rewrite Hne.
    + now rewrite IH.
Qed.

Lemma JsMap_set_get_id k v m : JsMap.get k m = Some v -> JsMap.set k v m = m.
Proof.
  induction m as [| [k' v'] m IH]; simpl; [discriminate |].
  destruct (String.eqb k k') eqn:E.
  - intros [= ->]. apply String.eqb_eq in E. now subst.
  - intros H. now rewrite IH.
Qed.

Lemma JsMap_set_set k v v' m :
  JsMap.set k v' (JsMap.set k v m) = JsMap.set k v' m.
Proof.
  induction m as [| [k0 v0] m IH]; simpl.
  - now rewrite String.eqb_refl.
  - destruct (String.eqb k k0) eqn:E; simpl.
    + now rewrite String.eqb_refl.
    + now rewrite E, IH.
Qed.

Lemma JsMap_delete_set k v m :
  JsMap.delete k (JsMap.set k v m) = JsMap.delete k m.
Proof.
  unfold JsMap.delete. induction m as [| [k0 v0] m IH]; simpl.
  - now rewrite String.eqb_refl.
  - destruct (String.eqb k k0) eqn:E; simpl.
    + now rewrite String.eqb_refl.
    + now rewrite E, IH.
Qed.

Lemma JsMap_delete_delete k m :
  JsMap.delete k (JsMap.delete k m) = JsMap.delete k m.
Proof.
  unfold JsMap.delete. induction m as [| [k0 v0] m IH]; simpl; [reflexivity |].
  destruct (String.eqb k k0) eqn:E; simpl; [assumption |].
  now rewrite E, IH.
Qed.

Lemma JsMap_get_delete_same k m : JsMap.get k (JsMap.delete k m) = None.
Proof.
  unfold JsMap.delete. induction m as [| [k0 v0] m IH]; simpl; [reflexivity |].
  destruct (String.eqb k k0) eqn:E; simpl; [assumption |].
  now rewrite E.
Qed.

Lemma JsMap_get_delete_other k k' m :
  k' <> k -> JsMap.get k' (JsMap.delete k m) = JsMap.get k' m.
Proof.
  intros Hne. unfold JsMap.delete.
  induction m as [| [k0 v0] m IH]; simpl; [reflexivity |].
  destruct (String.eqb k k0) eqn:E; simpl.
  - apply String.eqb_eq in E. subst k0.
    apply String.eqb_neq in Hne. now rewrite Hne.
  - now rewrite IH.
Qed.

Lemma JsMap_delete_keys k m : ~ In k (JsMap.keys (JsMap.delete k m)).
Proof.
  unfold JsMap.keys, JsMap.delete. rewrite in_map_iff.
  intros [[k0 v0] [Hk Hin]]. simpl in Hk. subst k0.
  apply filter_In in Hin as [_ Hin]. simpl in Hin.
  now rewrite String.eqb_refl in Hin.
Qed.

Lemma JsMap_delete_size k m : JsMap.size (JsMap.delete k m) <= JsMap.size m.
Proof. unfold JsMap.size, JsMap.delete. apply filter_length_le. Qed.

Lemma JsMap_has_get k m :
  JsMap.has k m = true <-> exists v, JsMap.get k m = Some v.
Proof.
  unfold JsMap.has. destruct (JsMap.get k m) as [v |].
  - split; [eauto | reflexivity].
  - split; [discriminate | intros [v Hv]; discriminate].
Qed.

(** A property of all entries survives [set] and [delete]. *)
Lemma Forall_JsMap_set (Q : string * V -> Prop) k v m :
  Forall Q m -> Q (k, v) -> Forall Q (JsMap.set k v m).
Proof.
  intros Hm Hv. induction Hm as [| [k0 v0] m H0 Hm IH]; simpl.
  - now constructor.
  - destruct (String.eqb k k0); constructor; assumption.
Qed.

Lemma Forall_JsMap_delete (Q : string * V -> Prop) k m :
  Forall Q m -> Forall Q (JsMap.delete k m).
Proof.
  unfold JsMap.delete. intros Hm. rewrite Forall_forall in *.
  intros x Hx. apply filter_In in Hx as [Hx _]. now apply Hm.
Qed.

Lemma JsMap_get_None_keys k m : JsMap.get k m = None <-> ~ In k (JsMap.keys m).
Proof.
  induction m as [| [k0 v0] m IH]; simpl; [tauto |].
  destruct (String.eqb k k0) eqn:E.
  - apply String.eqb_eq in E. subst k0. split; [discriminate | tauto].
  - apply String.eqb_neq in E. rewrite IH. split.
    + intros Hm [Heq | Hin]; [congruence | tauto].
    + tauto.
Qed.

Lemma JsMap_keys_set k v m :
  JsMap.keys (JsMap.set k v m)
  = if JsMap.has k m then JsMap.keys m else (JsMap.keys m ++ [k])%list.
Proof.
  unfold JsMap.has. induction m as [| [k0 v0] m IH]; simpl; [reflexivity |].
  destruct (String.eqb k k0) eqn:E; simpl.
  - apply String.eqb_eq in E. now subst k0.
  - rewrite IH. now destruct (JsMap.get k m).
Qed.

Lemma JsMap_keys_delete k m :
  JsMap.keys (JsMap.delete k m)
  = filter (fun k' => negb (String.eqb k k')) (JsMap.keys m).
Proof.
  unfold JsMap.keys, JsMap.delete.
  induction m as [| [k0 v0] m IH]; simpl; [reflexivity |].
  destruct (String.eqb k k0); simpl; now rewrite IH.
Qed.

(** Keys stay distinct under [set] and [delete]. *)
Lemma JsMap_set_NoDup k v m :
  NoDup (JsMap.keys m) -> NoDup (JsMap.keys (JsMap.set k v m)).
Proof.
  intros Hm. rewrite JsMap_keys_set. unfold JsMap.has.
  destruct (JsMap.get k m) eqn:E; [assumption |].
  apply JsMap_get_None_keys in E.
  apply NoDup_app; [assumption | repeat constructor; intros [] |].
  intros a Ha [<- | []]. contradiction.
Qed.

Lemma JsMap_delete_NoDup k m :
  NoDup (JsMap.keys m) -> NoDup (JsMap.keys (JsMap.delete k m)).
Proof. intros Hm. rewrite JsMap_keys_delete. now apply NoDup_filter. Qed.

End JsMapFacts.


(** * Facts about the registry *)

Section RegistryFacts.
Import RoomManager.

Implicit Types (rooms : Rooms) (room : Room) (roomId userId : string).

Lemma addUser_present userId room :
  JsSet.has userId (users room) = true -> addUser userId room = room.
Proof.
  intros H. destruct room as [i u c m]. unfold addUser. simpl in *.
  now rewrite JsSet_add_present.
Qed.

Lemma deleteUser_absent userId room :
  JsSet.has userId (users room) = false -> deleteUser userId room = room.
Proof.
  intros H. destruct room as [i u c m]. unfold deleteUser. simpl in *.
  now rewrite JsSet_delete_absent.
Qed.

Lemma createRoom_existing now roomId userId rooms room :
  JsMap.get roomId rooms = Some room ->
  createRoom now roomId userId rooms
  = (JsMap.set roomId (addUser userId room) rooms,
     Some (_sanitizeRoom (addUser userId room))).
Proof.
  intros H. unfold createRoom, JsMap.has. rewrite H. simpl. now rewrite H.
Qed.

Lemma createRoom_fresh now roomId userId rooms :
  JsMap.get roomId rooms = None ->
  createRoom now roomId userId rooms
  = (JsMap.set roomId (addUser userId (newRoom roomId now)) rooms,
     Some (_sanitizeRoom (addUser userId (newRoom roomId now)))).
Proof.
  intros H. unfold createRoom, JsMap.has. rewrite H. simpl negb. cbv iota.
  rewrite JsMap_get_set_same. now rewrite JsMap_set_set.
Qed.

(** [createRoom] never takes the [TypeError] branch. *)
Lemma createRoom_returns now roomId userId rooms :
  exists room,
    JsMap.get roomId (fst (createRoom now roomId userId rooms)) = Some room
    /\ snd (createRoom now roomId userId rooms) = Some (_sanitizeRoom room)
    /\ JsSet.has userId (users room) = true.
Proof.
  destruct (JsMap.get roomId rooms) as [room |] eqn:E.
  - rewrite (createRoom_existing _ _ _ _ _ E). simpl.
    exists (addUser userId room). rewrite JsMap_get_set_same.
    repeat split. apply JsSet_add_has.
  - rewrite (createRoom_fresh _ _ _ _ E). simpl.
    exists (addUser userId (newRoom roomId now)). rewrite JsMap_get_set_same.
    repeat split. apply JsSet_add_has.
Qed.

Lemma joinRoom_absent roomId userId rooms :
  JsMap.get roomId rooms = None -> joinRoom roomId userId rooms = (rooms, Null).
Proof. intros H. unfold joinRoom. now rewrite H. Qed.

Lemma joinRoom_full roomId userId rooms room :
  JsMap.get roomId rooms = Some room ->
  maxUsers room <= JsSet.size (users room) ->
  joinRoom roomId userId rooms = (rooms, Error ERROR_MESSAGES.ROOM_FULL).
Proof.
  intros H Hfull. unfold joinRoom. rewrite H.
  apply Nat.leb_le in Hfull. now rewrite Hfull.
Qed.

Lemma joinRoom_space roomId userId rooms room :
  JsMap.get roomId rooms = Some room ->
  JsSet.size (users room) < maxUsers room ->
  joinRoom roomId userId rooms
  = (JsMap.set roomId (addUser userId room) rooms,
     Sanitized (_sanitizeRoom (addUser userId room))).
Proof.
  intros H Hlt. unfold joinRoom. rewrite H.
  apply Nat.leb_gt in Hlt. now rewrite Hlt.
Qed.

(** The only error object [joinRoom] builds is a truthy one, so the router's
    [result?.error] test sees exactly the [Error] shape. *)
Lemma joinRoom_error_truthy roomId userId rooms error :
  snd (joinRoom roomId userId rooms) = Error error ->
  error = ERROR_MESSAGES.ROOM_FULL /\ truthy error = true.
Proof.
  unfold joinRoom. destruct (JsMap.get roomId rooms) as [room |]; simpl.
  - destruct (Nat.leb _ _); simpl; [| discriminate].
    intros [= <-]. now split.
  - discriminate.
Qed.

Lemma leaveRoom_absent roomId userId rooms :
  JsMap.get roomId rooms = None -> leaveRoom roomId userId rooms = (rooms, Null).
Proof. intros H. unfold leaveRoom. now rewrite H. Qed.

Lemma leaveRoom_last roomId userId rooms room :
  JsMap.get roomId rooms = Some room ->
  JsSet.delete userId (users room) = [] ->
  leaveRoom roomId userId rooms = (JsMap.delete roomId rooms, Null).
Proof.
  intros H Hlast. unfold leaveRoom. rewrite H. cbv zeta.
  change (users (deleteUser userId room)) with (JsSet.delete userId (users room)).
  rewrite Hlast. cbn [JsSet.size length Nat.eqb].
  now rewrite JsMap_delete_set.
Qed.

Lemma leaveRoom_remaining roomId userId rooms room :
  JsMap.get roomId rooms = Some room ->
  JsSet.delete userId (users room) <> [] ->
  leaveRoom roomId userId rooms
  = (JsMap.set roomId (deleteUser userId room) rooms,
     Sanitized (_sanitizeRoom (deleteUser userId room))).
Proof.
  intros H Hrest. unfold leaveRoom. rewrite H. cbv zeta.
  change (users (deleteUser userId room)) with (JsSet.delete userId (users room)).
  destruct (JsSet.delete userId (users room)) eqn:E; [contradiction | reflexivity].
Qed.

(** The three operations keep every entry well formed. *)
Lemma step_entries op rooms :
  Forall entry_ok rooms -> Forall entry_ok (step op rooms).
Proof.
  intros Hok. destruct op as [now roomId userId | roomId userId | roomId userId];
    simpl.
  - destruct (JsMap.get roomId rooms) as [room |] eqn:E.
    + rewrite (createRoom_existing _ _ _ _ _ E). simpl.
      apply Forall_JsMap_set; [assumption |].
      apply JsMap_get_In in E. rewrite Forall_forall in Hok.
      destruct (Hok _ E) as (Hid & _ & Hmax). simpl in *.
      repeat split; try assumption. apply JsSet_add_size.
    + rewrite (createRoom_fresh _ _ _ _ E). simpl.
      apply Forall_JsMap_set; [assumption |]. now repeat split.
  - unfold joinRoom. destruct (JsMap.get roomId rooms) as [room |] eqn:E;
      [| assumption].
    destruct (Nat.leb _ _); simpl; [assumption |].
    apply Forall_JsMap_set; [assumption |].
    apply JsMap_get_In in E. rewrite Forall_forall in Hok.
    destruct (Hok _ E) as (Hid & _ & Hmax). simpl in *.
    repeat split; try assumption. apply JsSet_add_size.
  - destruct (JsMap.get roomId rooms) as [room |] eqn:E.
    + destruct (JsSet.delete userId (users room)) as [| u rest] eqn:D.
      * rewrite (leaveRoom_last _ _ _ _ E D). simpl.
        now apply Forall_JsMap_delete.
      * assert (Hne : JsSet.delete userId (users room) <> [])
          by (rewrite D; discriminate).
        rewrite (leaveRoom_remaining _ _ _ _ E Hne). simpl.
        apply Forall_JsMap_set; [assumption |].
        apply JsMap_get_In in E. rewrite Forall_forall in Hok.
        destruct (Hok _ E) as (Hid & _ & Hmax). simpl in *.
        split; [exact Hid | split; [| exact Hmax]].
        change (1 <= length (JsSet.delete userId (users room))).
        rewrite D. simpl. lia.
    + now rewrite (leaveRoom_absent _ _ _ E).
Qed.

Lemma reachable_entries rooms : reachable rooms -> Forall entry_ok rooms.
Proof.
  induction 1 as [| op rooms _ IH]; [constructor | now apply step_entries].
Qed.

Lemma reachable_fold ops rooms :
  reachable rooms -> reachable (fold_left (fun r op => step op r) ops rooms).
Proof.
  revert rooms. induction ops as [| op ops IH]; simpl; intros rooms H;
    [assumption |]. apply IH. now constructor.
Qed.

Lemma reachable_run ops : reachable (run ops).
Proof. apply reachable_fold. constructor. Qed.

Lemma reachable_get rooms roomId room :
  reachable rooms -> JsMap.get roomId rooms = Some room ->
  id room = roomId /\ 1 <= JsSet.size (users room)
  /\ maxUsers room = ROOM_CONFIG.MAX_USERS_DEFAULT.
Proof.
  intros Hr Hget. apply reachable_entries in Hr. rewrite Forall_forall in Hr.
  apply JsMap_get_In in Hget. exact (Hr _ Hget).
Qed.

(** A boolean check on all rooms, read off a property of all entries. *)
Lemma forallb_values (P : Room -> bool) rooms :
  Forall (fun entry => P (snd entry) = true) rooms ->
  forallb P (JsMap.values rooms) = true.
Proof.
  intros H. apply forallb_forall. intros room Hin.
  apply in_map_iff in Hin as [entry [<- Hin]].
  rewrite Forall_forall in H. now apply H.
Qed.

Lemma values_forallb (P : Room -> bool) rooms :
  forallb P (JsMap.values rooms) = true ->
  Forall (fun entry => P (snd entry) = true) rooms.
Proof.
  intros H. rewrite forallb_forall in H. apply Forall_forall.
  intros entry Hin. apply H. now apply in_map.
Qed.

(** *** The capacity bound, operation by operation *)

Lemma joinRoom_capacity_ok roomId userId rooms :
  capacity_ok rooms = true ->
  capacity_ok (fst (joinRoom roomId userId rooms)) = true.
Proof.
  intros Hcap. unfold joinRoom.
  destruct (JsMap.get roomId rooms) as [room |] eqn:E; [| assumption].
  destruct (Nat.leb (maxUsers room) (JsSet.size (users room))) eqn:Hfull;
    [assumption |].
  apply Nat.leb_gt in Hfull. simpl.
  apply forallb_values, Forall_JsMap_set.
  - now apply values_forallb.
  - unfold within_capacity. simpl. apply Nat.leb_le.
    pose proof (JsSet_add_size userId (users room)) as [Hle _]. lia.
Qed.

Lemma leaveRoom_capacity_ok roomId userId rooms :
  capacity_ok rooms = true ->
  capacity_ok (fst (leaveRoom roomId userId rooms)) = true.
Proof.
  intros Hcap. apply values_forallb in Hcap.
  destruct (JsMap.get roomId rooms) as [room |] eqn:E.
  - destruct (JsSet.delete userId (users room)) as [| u rest] eqn:D.
    + rewrite (leaveRoom_last _ _ _ _ E D). simpl.
      now apply forallb_values, Forall_JsMap_delete.
    + assert (Hne : JsSet.delete userId (users room) <> [])
        by (rewrite D; discriminate).
      rewrite (leaveRoom_remaining _ _ _ _ E Hne). simpl.
      apply forallb_values, Forall_JsMap_set; [assumption |].
      apply JsMap_get_In in E. rewrite Forall_forall in Hcap.
      specialize (Hcap _ E). unfold within_capacity in *. simpl in *.
      apply Nat.leb_le in Hcap. apply Nat.leb_le.
      pose proof (JsSet_delete_size userId (users room)). lia.
  - rewrite (leaveRoom_absent _ _ _ E). simpl. now apply forallb_values.
Qed.

(** [createRoom] on a room id that is not in use makes a one-member room. *)
Lemma createRoom_fresh_capacity_ok now roomId userId rooms :
  JsMap.get roomId rooms = None ->
  capacity_ok rooms = true ->
  capacity_ok (fst (createRoom now roomId userId rooms)) = true.
Proof.
  intros E Hcap. rewrite (createRoom_fresh _ _ _ _ E). simpl.
  apply forallb_values, Forall_JsMap_set; [now apply values_forallb |].
  reflexivity.
Qed.

(** *** The lists stand for a [Map] and for [Set]s

    In a registry built by the three operations no key occurs twice and no
    member occurs twice in a room, so the list model loses nothing. *)

Lemma step_distinct op rooms :
  NoDup (JsMap.keys rooms) /\ Forall (fun entry => NoDup (users (snd entry))) rooms ->
  NoDup (JsMap.keys (step op rooms))
  /\ Forall (fun entry => NoDup (users (snd entry))) (step op rooms).
Proof.
  intros [Hkeys Husers].
  assert (Hroom : forall roomId room,
            JsMap.get roomId rooms = Some room -> NoDup (users room)).
  { intros roomId room Hget. apply JsMap_get_In in Hget.
    rewrite Forall_forall in Husers. exact (Husers _ Hget). }
  destruct op as [now roomId userId | roomId userId | roomId userId]; simpl.
  - destruct (JsMap.get roomId rooms) as [room |] eqn:E.
    + rewrite (createRoom_existing _ _ _ _ _ E). simpl. split.
      * now apply JsMap_set_NoDup.
      * apply Forall_JsMap_set; [assumption |]. simpl.
        apply JsSet_add_NoDup. now apply (Hroom roomId).
    + rewrite (createRoom_fresh _ _ _ _ E). simpl. split.
      * now apply JsMap_set_NoDup.
      * apply Forall_JsMap_set; [assumption |]. simpl.
        apply JsSet_add_NoDup. constructor.
  - unfold joinRoom. destruct (JsMap.get roomId rooms) as [room |] eqn:E;
      [| now split].
    destruct (Nat.leb _ _); simpl; [now split |]. split.
    + now apply JsMap_set_NoDup.
    + apply Forall_JsMap_set; [assumption |]. simpl.
      apply JsSet_add_NoDup. now apply (Hroom roomId).
  - unfold leaveRoom. destruct (JsMap.get roomId rooms) as [room |] eqn:E;
      [| now split].
    cbv zeta. destruct (Nat.eqb _ _); simpl.
    + rewrite JsMap_delete_set. split.
      * now apply JsMap_delete_NoDup.
      * now apply Forall_JsMap_delete.
    + split.
      * now apply JsMap_set_NoDup.
      * apply Forall_JsMap_set; [assumption |]. simpl.
        apply JsSet_delete_NoDup. now apply (Hroom roomId).
Qed.

Lemma reachable_distinct rooms :
  reachable rooms ->
  NoDup (JsMap.keys rooms)
  /\ Forall (fun entry => NoDup (users (snd entry))) rooms.
Proof.
  induction 1 as [| op rooms _ IH]; [| now apply step_distinct].
  split; constructor.
Qed.

End RegistryFacts.

(** * The registry's contract *)

Import RoomManager.

(** C1, as the code has it. In any registry, also one where [createRoom]
    has put rooms over capacity, [joinRoom] never takes a room past its
    capacity: every room after the call was there before with the same
    capacity, a room whose member count was at most its capacity before the
    call still is after it, and the only room the call can change is the
    named one, and only when its count was below capacity. So a registry
    with every room within capacity stays so. A call on a room whose member
    count is at or above capacity returns the error object with
    "Room is full" and leaves the whole registry, that room's members
    included, as it was. *)
Theorem joinRoom_keeps_capacity roomId userId rooms :
  (forall k room',
     JsMap.get k (fst (joinRoom roomId userId rooms)) = Some room' ->
     exists room,
       JsMap.get k rooms = Some room
       /\ maxUsers room' = maxUsers room
       /\ (JsSet.size (users room) <= maxUsers room ->
           JsSet.size (users room') <= maxUsers room')
       /\ (room' <> room ->
           k = roomId /\ JsSet.size (users room) < maxUsers room))
  /\ (capacity_ok rooms = true ->
      capacity_ok (fst (joinRoom roomId userId rooms)) = true)
  /\ (forall room,
        JsMap.get roomId rooms = Some room ->
        maxUsers room <= JsSet.size (users room) ->
        joinRoom roomId userId rooms = (rooms, Error "Room is full")).
Proof.
  split; [| split].
  - intros k room' Hafter.
    assert (Hsame : forall room,
              JsMap.get k rooms = Some room -> room' = room ->
              exists room0,
                JsMap.get k rooms = Some room0
                /\ maxUsers room' = maxUsers room0
                /\ (JsSet.size (users room0) <= maxUsers room0 ->
                    JsSet.size (users room') <= maxUsers room')
                /\ (room' <> room0 ->
                    k = roomId /\ JsSet.size (users room0) < maxUsers room0)).
    { intros room Hget ->. exists room.
      split; [assumption | split; [reflexivity | split]].
      - intros Hle. exact Hle.
      - intros Hne. now contradiction Hne. }
    unfold joinRoom in Hafter.
    destruct (JsMap.get roomId rooms) as [target |] eqn:Htarget.
    + destruct (Nat.leb (maxUsers target) (JsSet.size (users target)))
        eqn:Hfull; simpl in Hafter.
      * now apply (Hsame room').
      * apply Nat.leb_gt in Hfull. destruct (String.eqb k roomId) eqn:Hk.
        -- apply String.eqb_eq in Hk. subst k.
           rewrite JsMap_get_set_same in Hafter. injection Hafter as <-.
           exists target. simpl.
           split; [assumption | split; [reflexivity | split]].
           ++ intros _.
              pose proof (JsSet_add_size userId (users target)) as [Hle _]. lia.
           ++ intros _. now split.
        -- apply String.eqb_neq in Hk.
           rewrite (JsMap_get_set_other _ _ _ _ Hk) in Hafter.
           now apply (Hsame room').
    + simpl in Hafter. now apply (Hsame room').
  - apply joinRoom_capacity_ok.
  - intros room Hget Hfull. now apply joinRoom_full with (room := room).
Qed.

Lemma joinRoom_keeps_capacity_witness :
  (exists room,
     JsMap.get "R" [("S", mkRoom "S" ["A"; "B"; "C"] 1%Z 2);
                    ("R", mkRoom "R" ["X"] 2%Z 2)] = Some room
     /\ maxUsers (mkRoom "R" ["X"; "Y"] 2%Z 2) = maxUsers room
     /\ (JsSet.size (users room) <= maxUsers room ->
         JsSet.size (users (mkRoom "R" ["X"; "Y"] 2%Z 2))
         <= maxUsers (mkRoom "R" ["X"; "Y"] 2%Z 2))
     /\ (mkRoom "R" ["X"; "Y"] 2%Z 2 <> room ->
         "R" = "R" /\ JsSet.size (users room) < maxUsers room))
  /\ capacity_ok (fst (joinRoom "R" "B" (run [OpCreate 1%Z "R" "A"]))) = true
  /\ joinRoom "R" "C" (run [OpCreate 1%Z "R" "A"; OpJoin "R" "B"])
     = (run [OpCreate 1%Z "R" "A"; OpJoin "R" "B"], Error "Room is full").
Proof.
  split; [| split].
  - apply (proj1 (joinRoom_keeps_capacity "R" "Y"
                    [("S", mkRoom "S" ["A"; "B"; "C"] 1%Z 2);
                     ("R", mkRoom "R" ["X"] 2%Z 2)])
             "R" (mkRoom "R" ["X"; "Y"] 2%Z 2)).
    reflexivity.
  - apply (proj1 (proj2 (joinRoom_keeps_capacity "R" "B"
                           (run [OpCreate 1%Z "R" "A"])))).
    reflexivity.
  - apply (proj2 (proj2 (joinRoom_keeps_capacity "R" "C"
                           (run [OpCreate 1%Z "R" "A"; OpJoin "R" "B"])))
             (mkRoom "R" ["A"; "B"] 1%Z 2)).
    + reflexivity.
    + simpl. lia.
Defined.

(** C1 as stated fails: three [createRoom] calls on one room put three
    members in a room of capacity two, and the [joinRoom] that follows
    answers "Room is full" and leaves the room over capacity. *)
Lemma joinRoom_over_capacity_counterexample :
  let rooms :=
    run [OpCreate 1%Z "R" "A"; OpCreate 2%Z "R" "B"; OpCreate 3%Z "R" "C"] in
  reachable rooms
  /\ joinRoom "R" "D" rooms = (rooms, Error "Room is full")
  /\ JsMap.get "R" (fst (joinRoom "R" "D" rooms))
     = Some (mkRoom "R" ["A"; "B"; "C"] 1%Z 2)
  /\ capacity_ok (fst (joinRoom "R" "D" rooms)) = false.
Proof.
  split; [apply reachable_run |]. repeat split.
Qed.

(** C3. After any sequence of registry calls no room is empty; and a
    [leaveRoom] that removes a room's last member returns [null] ("Deleted"),
    after which [roomExists] is false and [getAllRooms] does not list the
    room: the deletion is part of [leaveRoom] itself. *)
Theorem no_room_is_empty ops :
  no_empty_room (run ops) = true
  /\ (forall roomId room,
        JsMap.get roomId (run ops) = Some room -> 1 <= JsSet.size (users room))
  /\ (forall roomId userId room,
        JsMap.get roomId (run ops) = Some room ->
        JsSet.delete userId (users room) = [] ->
        let after := fst (leaveRoom roomId userId (run ops)) in
        snd (leaveRoom roomId userId (run ops)) = Null
        /\ after = JsMap.delete roomId (run ops)
        /\ roomExists roomId after = false
        /\ ~ In roomId (map sum_id (getAllRooms after))).
Proof.
  pose proof (reachable_run ops) as Hr. set (rooms := run ops) in *.
  pose proof (reachable_entries _ Hr) as Hok.
  split; [| split].
  - apply forallb_values. eapply Forall_impl; [| exact Hok].
    intros entry (_ & Hne & _). unfold non_empty. now apply Nat.leb_le.
  - intros roomId room Hget. now apply (reachable_get _ _ _ Hr Hget).
  - intros roomId userId room Hget Hlast after. subst after.
    rewrite (leaveRoom_last _ _ _ _ Hget Hlast). simpl.
    repeat split.
    + unfold roomExists, JsMap.has. now rewrite JsMap_get_delete_same.
    + unfold getAllRooms, JsMap.values. rewrite !map_map. simpl.
      rewrite in_map_iff. intros [[k room'] [Hid Hin]]. simpl in Hid.
      pose proof (Forall_JsMap_delete _ roomId _ Hok) as Hok'.
      rewrite Forall_forall in Hok'. destruct (Hok' _ Hin) as (Hk & _).
      simpl in Hk. apply (JsMap_delete_keys roomId rooms).
      unfold JsMap.keys. apply in_map_iff. exists (k, room'). split; [| exact Hin].
      simpl. congruence.
Qed.

Lemma no_room_is_empty_witness :
  roomExists "R" (fst (leaveRoom "R" "A" (run [OpCreate 1%Z "R" "A"]))) = false.
Proof.
  refine (proj1 (proj2 (proj2
    (proj2 (proj2 (no_room_is_empty [OpCreate 1%Z "R" "A"]))
       "R" "A" (mkRoom "R" ["A"] 1%Z 2) _ _)))); reflexivity.
Defined.

(** C4. On a room that exists, [createRoom] adds the member and returns the
    sanitized room whatever the member count: no capacity test, no error
    object, no exception. [joinRoom] on the same registry answers
    "Room is full" as soon as the count has reached the capacity. *)
Theorem createRoom_ignores_capacity now roomId userId rooms room :
  JsMap.get roomId rooms = Some room ->
  createRoom now roomId userId rooms
  = (JsMap.set roomId (addUser userId room) rooms,
     Some (_sanitizeRoom (addUser userId room)))
  /\ JsMap.get roomId (fst (createRoom now roomId userId rooms))
     = Some (addUser userId room)
  /\ In userId (info_users (_sanitizeRoom (addUser userId room)))
  /\ (maxUsers room <= JsSet.size (users room) ->
      joinRoom roomId userId rooms = (rooms, Error "Room is full"))
  /\ (JsSet.size (users room) < maxUsers room ->
      joinRoom roomId userId rooms
      = (JsMap.set roomId (addUser userId room) rooms,
         Sanitized (_sanitizeRoom (addUser userId room)))).
Proof.
  intros Hget. rewrite (createRoom_existing _ _ _ _ _ Hget). simpl.
  rewrite JsMap_get_set_same. repeat split.
  - apply JsSet_add_In.
  - intros Hfull. now apply joinRoom_full with (room := room).
  - intros Hlt. now apply joinRoom_space.
Qed.

Lemma createRoom_ignores_capacity_witness :
  createRoom 3%Z "R" "C" (run [OpCreate 1%Z "R" "A"; OpJoin "R" "B"])
  = ([("R", mkRoom "R" ["A"; "B"; "C"] 1%Z 2)],
     Some (mkRoomInfo "R" ["A"; "B"; "C"] 3 2 1%Z)).
Proof.
  refine (proj1 (createRoom_ignores_capacity 3%Z "R" "C"
                   (run [OpCreate 1%Z "R" "A"; OpJoin "R" "B"])
                   (mkRoom "R" ["A"; "B"] 1%Z 2) _)).
  reflexivity.
Defined.

(** C8. [createRoom] called a second time with the same room id and the same
    user changes nothing: the registry after the second call is the registry
    after the first (same members, in the same order), and the second call
    returns the first call's sanitized room: same members, same count, same
    capacity (and same creation time, whatever the clock reads). *)
Theorem createRoom_idempotent now1 now2 roomId userId rooms :
  let first := createRoom now1 roomId userId rooms in
  let second := createRoom now2 roomId userId (fst first) in
  fst second = fst first
  /\ snd second = snd first
  /\ exists info,
       snd first = Some info
       /\ In userId (info_users info)
       /\ info_userCount info = length (info_users info)
       /\ getRoomUsers roomId (fst second) = info_users info.
Proof.
  intros first second. subst second first.
  destruct (createRoom_returns now1 roomId userId rooms)
    as (room & Hget & Hinfo & Hhas).
  rewrite Hinfo. rewrite (createRoom_existing _ _ _ _ _ Hget).
  rewrite (addUser_present _ _ Hhas). simpl.
  rewrite (JsMap_set_get_id _ _ _ Hget).
  repeat split. exists (_sanitizeRoom room). repeat split.
  - simpl. now apply JsSet_has_In.
  - unfold getRoomUsers. now rewrite Hget.
Qed.

(** C9. In a registry built by any sequence of calls, [leaveRoom] for a user
    who is not in the (existing) room changes nothing and returns the
    sanitized room as it stands: same members, same count, same capacity;
    the room is not deleted, since it had a member before and still has. *)
Theorem leaveRoom_non_member ops roomId userId room :
  JsMap.get roomId (run ops) = Some room ->
  JsSet.has userId (users room) = false ->
  leaveRoom roomId userId (run ops)
  = (run ops, Sanitized (_sanitizeRoom room))
  /\ roomExists roomId (fst (leaveRoom roomId userId (run ops))) = true
  /\ 1 <= info_userCount (_sanitizeRoom room).
Proof.
  intros Hget Habsent.
  destruct (reachable_get _ _ _ (reachable_run ops) Hget) as (_ & Hne & _).
  assert (Hrest : JsSet.delete userId (users room) <> []).
  { rewrite (JsSet_delete_absent _ _ Habsent). intros Hnil.
    rewrite Hnil in Hne. simpl in Hne. lia. }
  rewrite (leaveRoom_remaining _ _ _ _ Hget Hrest).
  rewrite (deleteUser_absent _ _ Habsent).
  rewrite (JsMap_set_get_id _ _ _ Hget). simpl.
  repeat split; [| exact Hne].
  unfold roomExists, JsMap.has. now rewrite Hget.
Qed.

Lemma leaveRoom_non_member_witness :
  leaveRoom "R" "Z" (run [OpCreate 1%Z "R" "A"; OpJoin "R" "B"])
  = ([("R", mkRoom "R" ["A"; "B"] 1%Z 2)],
     Sanitized (mkRoomInfo "R" ["A"; "B"] 2 2 1%Z)).
Proof.
  refine (proj1 (leaveRoom_non_member [OpCreate 1%Z "R" "A"; OpJoin "R" "B"]
                   "R" "Z" (mkRoom "R" ["A"; "B"] 1%Z 2) _ _)); reflexivity.
Defined.

(** C10. Each of [createRoom], [joinRoom], [leaveRoom] leaves the entries of
    every room other than the named one exactly as they were; a room that is
    there before and after a call keeps its id, capacity and creation time;
    and after any sequence of calls every room is stored under its own id
    with capacity [ROOM_CONFIG.MAX_USERS_DEFAULT], which is 2. *)
Theorem registry_frame op rooms :
  JsMap.delete (target op) (step op rooms) = JsMap.delete (target op) rooms
  /\ (forall other,
        other <> target op ->
        JsMap.get other (step op rooms) = JsMap.get other rooms)
  /\ (forall room room',
        JsMap.get (target op) rooms = Some room ->
        JsMap.get (target op) (step op rooms) = Some room' ->
        id room' = id room
        /\ maxUsers room' = maxUsers room
        /\ createdAt room' = createdAt room)
  /\ (forall ops roomId room,
        JsMap.get roomId (run ops) = Some room ->
        id room = roomId /\ maxUsers room = ROOM_CONFIG.MAX_USERS_DEFAULT)
  /\ ROOM_CONFIG.MAX_USERS_DEFAULT = 2.
Proof.
  assert (Hothers :
    JsMap.delete (target op) (step op rooms) = JsMap.delete (target op) rooms).
  { destruct op as [now roomId userId | roomId userId | roomId userId]; simpl.
    - destruct (JsMap.get roomId rooms) as [room |] eqn:E.
      + rewrite (createRoom_existing _ _ _ _ _ E). simpl.
        apply JsMap_delete_set.
      + rewrite (createRoom_fresh _ _ _ _ E). simpl. apply JsMap_delete_set.
    - unfold joinRoom. destruct (JsMap.get roomId rooms) as [room |];
        [| reflexivity].
      destruct (Nat.leb _ _); simpl; [reflexivity | apply JsMap_delete_set].
    - unfold leaveRoom. destruct (JsMap.get roomId rooms) as [room |];
        [| reflexivity].
      cbv zeta. destruct (Nat.eqb _ _); simpl.
      + now rewrite JsMap_delete_delete, JsMap_delete_set.
      + apply JsMap_delete_set. }
  split; [exact Hothers |]. split; [| split; [| split; [| reflexivity]]].
  - intros other Hne.
    rewrite <- (JsMap_get_delete_other (target op) other (step op rooms) Hne).
    rewrite Hothers. now apply JsMap_get_delete_other.
  - intros room room' Hget.
    destruct op as [now roomId userId | roomId userId | roomId userId];
      simpl in *.
    + rewrite (createRoom_existing _ _ _ _ _ Hget). simpl.
      rewrite JsMap_get_set_same. intros [= <-]. now repeat split.
    + unfold joinRoom. rewrite Hget. destruct (Nat.leb _ _); simpl.
      * rewrite Hget. intros [= <-]. now repeat split.
      * rewrite JsMap_get_set_same. intros [= <-]. now repeat split.
    + unfold leaveRoom. rewrite Hget. cbv zeta. destruct (Nat.eqb _ _); simpl.
      * now rewrite JsMap_get_delete_same.
      * rewrite JsMap_get_set_same. intros [= <-]. now repeat split.
  - intros ops roomId room Hget.
    destruct (reachable_get _ _ _ (reachable_run ops) Hget) as (Hid & _ & Hmax).
    now split.
Qed.

Lemma registry_frame_witness :
  JsMap.get "S" (step (OpLeave "R" "A")
                   (run [OpCreate 1%Z "R" "A"; OpCreate 2%Z "S" "B"]))
  = JsMap.get "S" (run [OpCreate 1%Z "R" "A"; OpCreate 2%Z "S" "B"]).
Proof.
  refine (proj1 (proj2 (registry_frame (OpLeave "R" "A")
            (run [OpCreate 1%Z "R" "A"; OpCreate 2%Z "S" "B"]))) "S" _).
  discriminate.
Defined.

(** * Facts about the router *)

Section RouterFacts.
Import SignalingHandler.

Implicit Types (st : State) (socketId roomId : string).

Lemma withRooms_same st : withRooms st (roomManager st) = st.
Proof. now destruct st. Qed.

Lemma roomExists_get roomId rooms :
  roomExists roomId rooms = true <-> exists room, JsMap.get roomId rooms = Some room.
Proof. apply JsMap_has_get. Qed.

Lemma roomExists_absent roomId rooms :
  roomExists roomId rooms = false <-> JsMap.get roomId rooms = None.
Proof.
  unfold roomExists, JsMap.has. destruct (JsMap.get roomId rooms).
  - split; discriminate.
  - split; reflexivity.
Qed.

(** [getUserRoom] answers with a room that has the user, or [None] when no
    room has. *)
Lemma getUserRoom_found userId rooms roomId :
  getUserRoom userId rooms = Some roomId ->
  exists room, In (roomId, room) rooms /\ JsSet.has userId (users room) = true.
Proof.
  induction rooms as [| [k room] rooms IH]; simpl; [discriminate |].
  destruct (JsSet.has userId (users room)) eqn:E.
  - intros [= <-]. exists room. split; [now left | assumption].
  - intros H. destruct (IH H) as (room' & Hin & Hhas).
    exists room'. split; [now right | assumption].
Qed.

Lemma getUserRoom_none userId rooms :
  getUserRoom userId rooms = None ->
  forall roomId room, In (roomId, room) rooms -> JsSet.has userId (users room) = false.
Proof.
  induction rooms as [| [k room] rooms IH]; simpl; [contradiction |].
  destruct (JsSet.has userId (users room)) eqn:E; [discriminate |].
  intros H roomId room' [[= <- <-] | Hin]; [assumption | now apply (IH H roomId)].
Qed.

(** [handleDisconnection] when [getUserRoom] finds a room whose id is a
    truthy string: one [leaveRoom], one "user-left" to the room's group with
    the leaving socket left out, and the registration removed. *)
Lemma handleDisconnection_in_room socketId st roomId :
  getUserRoom socketId (roomManager st) = Some roomId ->
  truthy roomId = true ->
  handleDisconnection socketId st
  = ({| roomManager := fst (leaveRoom roomId socketId (roomManager st));
        userSockets := JsMap.delete socketId (userSockets st) |},
     [Emit (SocketTo socketId roomId) "user-left"
           (UserLeftData socketId roomId)]).
Proof.
  intros Hroom Htruthy. unfold handleDisconnection. rewrite Hroom, Htruthy.
  now destruct (leaveRoom roomId socketId (roomManager st)).
Qed.

Lemma handleDisconnection_no_room socketId st :
  getUserRoom socketId (roomManager st) = None ->
  handleDisconnection socketId st
  = ({| roomManager := roomManager st;
        userSockets := JsMap.delete socketId (userSockets st) |}, []).
Proof. intros Hroom. unfold handleDisconnection. now rewrite Hroom. Qed.

(** The registration is dropped whatever the room lookup gave. *)
Lemma handleDisconnection_unregisters socketId st :
  userSockets (fst (handleDisconnection socketId st))
  = JsMap.delete socketId (userSockets st).
Proof.
  unfold handleDisconnection.
  destruct (getUserRoom socketId (roomManager st)) as [r |]; [| reflexivity].
  destruct (truthy r); [| reflexivity].
  now destruct (leaveRoom r socketId (roomManager st)).
Qed.


Lemma recipients_within_group members socketId name x :
  In x (recipients members (SocketTo socketId name)) -> In x (members name).
Proof. simpl. intros Hin. now apply filter_In in Hin as [Hin _]. Qed.

(** Every state the server reaches keeps every room within capacity: the
    listeners call [createRoom] only for a room id that is not in use. *)
Lemma handle_capacity_ok ev st :
  capacity_ok (roomManager st) = true ->
  capacity_ok (roomManager (fst (handle ev st))) = true.
Proof.
  intros Hcap. destruct ev as [socketId | now socketId msg | socketId]; simpl.
  - assumption.
  - destruct msg; simpl; try assumption.
    + unfold onCreateRoom.
      destruct (roomExists roomId (roomManager st)) eqn:Hex.
      * pose proof (joinRoom_capacity_ok roomId socketId _ Hcap) as Hj.
        destruct (joinRoom roomId socketId (roomManager st)) as [rooms1 result].
        now destruct result.
      * apply roomExists_absent in Hex.
        pose proof (createRoom_fresh_capacity_ok now roomId socketId _ Hex Hcap)
          as Hc.
        destruct (createRoom now roomId socketId (roomManager st))
          as [rooms1 created].
        now destruct created.
    + unfold onJoinRoom.
      destruct (JsMap.get roomId (roomManager st)) as [room |] eqn:Hget.
      * pose proof (joinRoom_capacity_ok roomId socketId _ Hcap) as Hj.
        unfold joinRoom in *. rewrite Hget in *.
        destruct (Nat.leb _ _); simpl in *; assumption.
      * rewrite (joinRoom_absent _ _ _ Hget).
        pose proof (createRoom_fresh_capacity_ok now roomId socketId _ Hget Hcap)
          as Hc.
        destruct (createRoom now roomId socketId (roomManager st))
          as [rooms1 created].
        now destruct created.
  - unfold handleDisconnection.
    destruct (getUserRoom socketId (roomManager st)) as [r |]; [| assumption].
    destruct (truthy r); [| assumption].
    pose proof (leaveRoom_capacity_ok r socketId _ Hcap) as Hl.
    now destruct (leaveRoom r socketId (roomManager st)).
Qed.

Lemma served_capacity_ok st : served st -> capacity_ok (roomManager st) = true.
Proof.
  induction 1 as [| ev st _ IH]; [reflexivity | now apply handle_capacity_ok].
Qed.

(** No listener runs into the [TypeError] branches: [joinRoom] is asked about
    a room only after [roomExists], and [createRoom] always finds the room
    it has just made sure of. *)
Lemma handle_never_throws ev st : ~ In Throw (snd (handle ev st)).
Proof.
  destruct ev as [socketId | now socketId msg | socketId]; simpl.
  - tauto.
  - destruct msg as [roomId | roomId | roomId offer [t |] | roomId answer [t |]
                     | roomId candidate [t |] | roomId mediaState | roomId];
      simpl; try (intros [Hin | []]; discriminate).
    + unfold onCreateRoom.
      destruct (roomExists roomId (roomManager st)) eqn:Hex.
      * apply roomExists_get in Hex as [room Hget].
        unfold joinRoom. rewrite Hget. destruct (Nat.leb _ _); simpl.
        -- intros [Hin | []]; discriminate.
        -- intros [Hin | [Hin | []]]; discriminate.
      * apply roomExists_absent in Hex.
        rewrite (createRoom_fresh _ _ _ _ Hex). simpl.
        intros [Hin | [Hin | []]]; discriminate.
    + unfold onJoinRoom.
      destruct (JsMap.get roomId (roomManager st)) as [room |] eqn:Hget.
      * unfold joinRoom. rewrite Hget. destruct (Nat.leb _ _); simpl.
        -- intros [Hin | []]; discriminate.
        -- intros [Hin | [Hin | []]]; discriminate.
      * rewrite (joinRoom_absent _ _ _ Hget), (createRoom_fresh _ _ _ _ Hget).
        simpl. intros [Hin | [Hin | []]]; discriminate.
    + destruct (truthy t); simpl; intros [Hin | []]; discriminate.
    + destruct (truthy t); simpl; intros [Hin | []]; discriminate.
    + destruct (truthy t); simpl; intros [Hin | []]; discriminate.
  - unfold handleDisconnection.
    destruct (getUserRoom socketId (roomManager st)) as [r |]; simpl; [| tauto].
    destruct (truthy r); simpl; [| tauto].
    destruct (leaveRoom r socketId (roomManager st)). simpl.
    intros [Hin | []]; discriminate.
Qed.

End RouterFacts.

(** * The router's contract *)

Import SignalingHandler.

(** C2. A create-room request for a room that exists and whose member count
    has reached its capacity makes the router emit one thing only: a
    "join-error" to the requesting socket, with [error] the string
    "Room is full". There is no [socket.join], and the registry and the
    registrations are left as they were. *)
Theorem createRoom_request_on_full_room now socketId roomId st room :
  JsMap.get roomId (roomManager st) = Some room ->
  maxUsers room <= JsSet.size (users room) ->
  handleMessage now socketId (CreateRoomMsg roomId) st
  = (st, [Emit (ToSelf socketId) "join-error" (JoinErrorData "Room is full")])
  /\ (forall members, recipients members (ToSelf socketId) = [socketId])
  /\ filter isJoin (snd (handleMessage now socketId (CreateRoomMsg roomId) st))
     = []
  /\ getRoomUsers roomId
       (roomManager (fst (handleMessage now socketId (CreateRoomMsg roomId) st)))
     = users room.
Proof.
  intros Hget Hfull.
  assert (Hout : handleMessage now socketId (CreateRoomMsg roomId) st
    = (st, [Emit (ToSelf socketId) "join-error" (JoinErrorData "Room is full")])).
  { simpl. unfold onCreateRoom.
    assert (Hex : roomExists roomId (roomManager st) = true)
      by (apply roomExists_get; eauto).
    rewrite Hex, (joinRoom_full _ _ _ _ Hget Hfull).
    now rewrite withRooms_same. }
  rewrite Hout. simpl. repeat split.
  unfold getRoomUsers. now rewrite Hget.
Qed.

Lemma createRoom_request_on_full_room_witness :
  handleMessage 9%Z "C" (CreateRoomMsg "R")
    (mkState [("R", mkRoom "R" ["A"; "B"] 1%Z 2)] [("C", "C")])
  = (mkState [("R", mkRoom "R" ["A"; "B"] 1%Z 2)] [("C", "C")],
     [Emit (ToSelf "C") "join-error" (JoinErrorData "Room is full")]).
Proof.
  refine (proj1 (createRoom_request_on_full_room 9%Z "C" "R"
            (mkState [("R", mkRoom "R" ["A"; "B"] 1%Z 2)] [("C", "C")])
            (mkRoom "R" ["A"; "B"] 1%Z 2) _ _)).
  - reflexivity.
  - simpl. lia.
Defined.

(** C5. A join-room request calls [joinRoom]. When that returns [null] (no
    such room) the router calls [createRoom] instead and no error is emitted;
    when it returns the error object the requester alone gets "join-error".
    In both successful cases the router does [socket.join(roomId)] and then
    emits "user-joined" to the whole group of the room, carrying the room's
    member list as it is after the call, the requester in it. *)
Theorem joinRoom_request now socketId roomId st :
  let rooms := roomManager st in
  let out := handleMessage now socketId (JoinRoomMsg roomId) st in
  let joined (rooms' : Rooms) :=
    (withRooms st rooms',
     [SocketJoin socketId roomId;
      Emit (IoTo roomId) "user-joined"
           (UserJoinedData roomId socketId (getRoomUsers roomId rooms'))]) in
  match snd (joinRoom roomId socketId rooms) with
  | Null =>
      out = joined (fst (createRoom now roomId socketId rooms))
      /\ getRoomUsers roomId (roomManager (fst out)) = [socketId]
      /\ filter (isEmitOf "join-error") (snd out) = []
  | Error error =>
      out = (st, [Emit (ToSelf socketId) "join-error" (JoinErrorData error)])
  | Sanitized _ =>
      out = joined (fst (joinRoom roomId socketId rooms))
      /\ In socketId (getRoomUsers roomId (roomManager (fst out)))
  end.
Proof.
  intros rooms out joined. subst rooms out joined. simpl handleMessage.
  unfold onJoinRoom.
  destruct (JsMap.get roomId (roomManager st)) as [room |] eqn:Hget.
  - unfold joinRoom. rewrite Hget.
    destruct (Nat.leb (maxUsers room) (JsSet.size (users room))); simpl.
    + now rewrite withRooms_same.
    + unfold getRoomUsers. rewrite JsMap_get_set_same. simpl.
      split; [reflexivity | apply JsSet_add_In].
  - rewrite (joinRoom_absent _ _ _ Hget). simpl.
    rewrite (createRoom_fresh _ _ _ _ Hget). simpl.
    unfold getRoomUsers. rewrite JsMap_get_set_same. simpl.
    now repeat split.
Qed.

(** C6, at the input where the code departs from it. A socket that created
    the room whose id is the empty string is found by [getUserRoom], but
    [if (roomId)] takes the empty string for "no room": [leaveRoom] is not
    called, no "user-left" is emitted, and the room stays in the registry
    with the departed socket as its member. The registration is removed. *)
Theorem handleDisconnection_empty_room_id :
  let st :=
    fst (runEvents [Connected "A"; Received 5%Z "A" (CreateRoomMsg "")] init) in
  getUserRoom "A" (roomManager st) = Some ""
  /\ handleDisconnection "A" st
     = ({| roomManager := roomManager st; userSockets := [] |}, [])
  /\ getRoomUsers "" (roomManager (fst (handleDisconnection "A" st))) = ["A"]
  /\ fst (leaveRoom "" "A" (roomManager st)) = [].
Proof. repeat split. Qed.





(** * Further facts about the containers and the registry *)

Section MoreRegistryFacts.

Implicit Types (rooms : Rooms) (room : Room) (roomId userId : string).

Lemma JsSet_delete_add x s :
  JsSet.has x s = false -> JsSet.delete x (JsSet.add x s) = s.
Proof.
  intros H. unfold JsSet.add. rewrite H. unfold JsSet.delete.
  rewrite filter_app. simpl. rewrite String.eqb_refl. simpl.
  rewrite app_nil_r. now apply JsSet_delete_absent.
Qed.

Lemma JsSet_delete_size_member x s :
  NoDup s -> In x s -> S (JsSet.size (JsSet.delete x s)) = JsSet.size s.
Proof.
  unfold JsSet.size. induction 1 as [| y s Hy Hs IH]; simpl; [contradiction |].
  intros [-> | Hin].
  - rewrite String.eqb_refl. simpl. f_equal.
    fold (JsSet.delete x s). rewrite JsSet_delete_absent; [reflexivity |].
    destruct (JsSet.has x s) eqn:E; [| reflexivity].
    apply JsSet_has_In in E. contradiction.
  - destruct (String.eqb x y) eqn:E.
    + apply String.eqb_eq in E. subst y. contradiction.
    + simpl. f_equal. now apply IH.
Qed.

Lemma JsSet_delete_In x y s : In y (JsSet.delete x s) <-> In y s /\ y <> x.
Proof.
  unfold JsSet.delete. rewrite filter_In. split; intros [Hin Hne]; split;
    try assumption.
  - intros ->. now rewrite String.eqb_refl in Hne.
  - apply negb_true_iff, String.eqb_neq. congruence.
Qed.

Lemma JsMap_In_get {V} k (v : V) (m : JsMap.t V) :
  NoDup (JsMap.keys m) -> In (k, v) m -> JsMap.get k m = Some v.
Proof.
  induction m as [| [k0 v0] m IH]; simpl; [contradiction |].
  intros Hnd [[= -> ->] | Hin].
  - now rewrite String.eqb_refl.
  - inversion Hnd as [| ? ? Hk0 Hm]; subst.
    destruct (String.eqb k k0) eqn:E.
    + apply String.eqb_eq in E. subst k0. exfalso. apply Hk0.
      unfold JsMap.keys. apply in_map_iff. now exists (k, v).
    + now apply IH.
Qed.

Lemma JsMap_delete_absent {V} k (m : JsMap.t V) :
  JsMap.get k m = None -> JsMap.delete k m = m.
Proof.
  unfold JsMap.delete. induction m as [| [k0 v0] m IH]; simpl; [reflexivity |].
  destruct (String.eqb k k0); [discriminate |]. intros H. simpl. now rewrite IH.
Qed.

Lemma deleteUser_addUser userId room :
  JsSet.has userId (users room) = false ->
  deleteUser userId (addUser userId room) = room.
Proof.
  intros H. destruct room as [i u c m]. unfold deleteUser, addUser. simpl in *.
  now rewrite JsSet_delete_add.
Qed.

Lemma leaveRoom_get_other roomId userId rooms other :
  other <> roomId ->
  JsMap.get other (fst (leaveRoom roomId userId rooms)) = JsMap.get other rooms.
Proof.
  intros Hne. unfold leaveRoom.
  destruct (JsMap.get roomId rooms) as [room |]; [| reflexivity].
  cbv zeta. destruct (Nat.eqb _ _); simpl.
  - rewrite JsMap_get_delete_other by assumption.
    now apply JsMap_get_set_other.
  - now apply JsMap_get_set_other.
Qed.

Lemma reachable_room_distinct rooms roomId room :
  reachable rooms -> JsMap.get roomId rooms = Some room -> NoDup (users room).
Proof.
  intros Hr Hget. destruct (reachable_distinct _ Hr) as [_ Husers].
  rewrite Forall_forall in Husers. apply JsMap_get_In in Hget.
  exact (Husers _ Hget).
Qed.

Lemma getAllRooms_ids rooms :
  Forall entry_ok rooms -> map sum_id (getAllRooms rooms) = JsMap.keys rooms.
Proof.
  unfold getAllRooms, JsMap.values, JsMap.keys. rewrite !map_map. simpl.
  intros Hok. apply map_ext_in. intros entry Hin.
  rewrite Forall_forall in Hok. now destruct (Hok _ Hin) as (Hid & _).
Qed.

Lemma JsMap_has_keys {V} k (m : JsMap.t V) :
  JsMap.has k m = true <-> In k (JsMap.keys m).
Proof.
  unfold JsMap.has. destruct (JsMap.get k m) as [v |] eqn:E.
  - split; [intros _ | reflexivity]. apply JsMap_get_In in E.
    unfold JsMap.keys. apply in_map_iff. now exists (k, v).
  - apply JsMap_get_None_keys in E. split; [discriminate | contradiction].
Qed.

End MoreRegistryFacts.

(** * More of the registry's behaviour *)

(** X1. What [getRoomInfo] returns after any sequence of registry calls is a
    set written as an array: [null] exactly when the room does not exist,
    otherwise the room's own id, its members with none listed twice and equal
    to [getRoomUsers], a count equal to the array's length and at least 1,
    and the default capacity. *)
Theorem getRoomInfo_is_a_set ops roomId :
  match getRoomInfo roomId (run ops) with
  | None => roomExists roomId (run ops) = false
  | Some info =>
      roomExists roomId (run ops) = true
      /\ info_id info = roomId
      /\ NoDup (info_users info)
      /\ info_users info = getRoomUsers roomId (run ops)
      /\ info_userCount info = length (info_users info)
      /\ 1 <= info_userCount info
      /\ info_maxUsers info = 2
  end.
Proof.
  pose proof (reachable_run ops) as Hr. unfold getRoomInfo, getRoomUsers.
  destruct (JsMap.get roomId (run ops)) as [room |] eqn:Hget.
  - destruct (reachable_get _ _ _ Hr Hget) as (Hid & Hne & Hmax).
    repeat split; try assumption.
    + unfold roomExists, JsMap.has. now rewrite Hget.
    + simpl. now apply (reachable_room_distinct _ _ _ Hr Hget).
  - now apply roomExists_absent.
Qed.

(** X2. After any sequence of registry calls, [getUserRoom] answers with a
    room the user is a member of, and answers [null] exactly when the user is
    in no room. In any registry the room it names is the first one in map
    order that has the user. *)
Theorem getUserRoom_finds_membership ops userId :
  (forall roomId,
     getUserRoom userId (run ops) = Some roomId ->
     In userId (getRoomUsers roomId (run ops)))
  /\ (getUserRoom userId (run ops) = None <->
      forall roomId, ~ In userId (getRoomUsers roomId (run ops)))
  /\ (forall rooms roomId,
        getUserRoom userId rooms = Some roomId ->
        exists before room after,
          rooms = (before ++ (roomId, room) :: after)%list
          /\ JsSet.has userId (users room) = true
          /\ Forall (fun entry => JsSet.has userId (users (snd entry)) = false)
                    before).
Proof.
  pose proof (reachable_run ops) as Hr.
  destruct (reachable_distinct _ Hr) as [Hkeys _].
  assert (Hsound : forall roomId,
            getUserRoom userId (run ops) = Some roomId ->
            In userId (getRoomUsers roomId (run ops))).
  { intros roomId Hfound.
    destruct (getUserRoom_found _ _ _ Hfound) as (room & Hin & Hhas).
    unfold getRoomUsers. rewrite (JsMap_In_get _ _ _ Hkeys Hin).
    now apply JsSet_has_In. }
  split; [exact Hsound | split].
  - split.
    + intros Hnone roomId. unfold getRoomUsers.
      destruct (JsMap.get roomId (run ops)) as [room |] eqn:Hget; [| tauto].
      apply JsMap_get_In in Hget.
      pose proof (getUserRoom_none _ _ Hnone _ _ Hget) as Habsent.
      intros Hin. apply JsSet_has_In in Hin. unfold JsSet.to_array in *.
      congruence.
    + intros Hno. destruct (getUserRoom userId (run ops)) as [r |] eqn:E;
        [| reflexivity].
      exfalso. apply (Hno r). now apply Hsound.
  - intros rooms. induction rooms as [| [k room] rooms IH]; simpl;
      [discriminate |].
    intros roomId. destruct (JsSet.has userId (users room)) eqn:E.
    + intros [= <-]. exists [], room, rooms. now repeat split.
    + intros Hfound. destruct (IH _ Hfound) as (before & room' & after & -> & Hhas & Hbefore).
      exists ((k, room) :: before), room', after. repeat split; try assumption.
      now constructor.
Qed.

(** X3. After any sequence of registry calls, [leaveRoom] for a member of a
    room that has another member keeps the room and returns it without that
    member: the others stay, in their order, the count drops by exactly one,
    the capacity is unchanged, and every other room is untouched. *)
Theorem leaveRoom_member ops roomId userId room :
  JsMap.get roomId (run ops) = Some room ->
  In userId (users room) ->
  2 <= JsSet.size (users room) ->
  exists info,
    leaveRoom roomId userId (run ops)
    = (JsMap.set roomId (deleteUser userId room) (run ops), Sanitized info)
    /\ info_users info = JsSet.delete userId (users room)
    /\ ~ In userId (info_users info)
    /\ (forall x, x <> userId -> (In x (info_users info) <-> In x (users room)))
    /\ S (info_userCount info) = JsSet.size (users room)
    /\ info_maxUsers info = maxUsers room
    /\ getRoomUsers roomId (fst (leaveRoom roomId userId (run ops)))
       = info_users info.
Proof.
  intros Hget Hin Htwo.
  pose proof (reachable_room_distinct _ _ _ (reachable_run ops) Hget) as Hnd.
  pose proof (JsSet_delete_size_member _ _ Hnd Hin) as Hsize.
  assert (Hrest : JsSet.delete userId (users room) <> []).
  { intros Hnil. rewrite Hnil in Hsize. simpl in Hsize. lia. }
  rewrite (leaveRoom_remaining _ _ _ _ Hget Hrest).
  exists (_sanitizeRoom (deleteUser userId room)). simpl.
  repeat split; try assumption.
  - intros Hx. apply JsSet_delete_In in Hx. now destruct Hx.
  - intros Hx. now apply JsSet_delete_In in Hx.
  - intros Hx. apply JsSet_delete_In. now split.
  - unfold getRoomUsers. now rewrite JsMap_get_set_same.
Qed.

Lemma leaveRoom_member_witness :
  exists info,
    leaveRoom "R" "A" (run [OpCreate 1%Z "R" "A"; OpJoin "R" "B"])
    = (JsMap.set "R" (deleteUser "A" (mkRoom "R" ["A"; "B"] 1%Z 2))
         (run [OpCreate 1%Z "R" "A"; OpJoin "R" "B"]), Sanitized info)
    /\ info_users info = ["B"].
Proof.
  destruct (leaveRoom_member [OpCreate 1%Z "R" "A"; OpJoin "R" "B"] "R" "A"
              (mkRoom "R" ["A"; "B"] 1%Z 2)) as (info & Hout & Husers & _).
  - reflexivity.
  - simpl. tauto.
  - simpl. lia.
  - exists info. split; [exact Hout | exact Husers].
Defined.

(** X4. Joining and leaving undo each other: after any sequence of registry
    calls, a [joinRoom] that succeeds for a user who was not a member puts
    the user last in the member list, and the [leaveRoom] that follows gives
    back exactly the registry from before the join. *)
Theorem joinRoom_then_leaveRoom ops roomId userId room :
  JsMap.get roomId (run ops) = Some room ->
  JsSet.has userId (users room) = false ->
  JsSet.size (users room) < maxUsers room ->
  let joined := joinRoom roomId userId (run ops) in
  getRoomUsers roomId (fst joined) = (users room ++ [userId])%list
  /\ leaveRoom roomId userId (fst joined)
     = (run ops, Sanitized (_sanitizeRoom room)).
Proof.
  intros Hget Habsent Hspace joined. subst joined.
  destruct (reachable_get _ _ _ (reachable_run ops) Hget) as (_ & Hne & _).
  rewrite (joinRoom_space _ _ _ _ Hget Hspace). simpl. split.
  - unfold getRoomUsers. rewrite JsMap_get_set_same. simpl.
    unfold JsSet.add. now rewrite Habsent.
  - assert (Hrest :
      JsSet.delete userId (users (addUser userId room)) <> []).
    { simpl. rewrite (JsSet_delete_add _ _ Habsent). intros Hnil.
      rewrite Hnil in Hne. simpl in Hne. lia. }
    rewrite (leaveRoom_remaining _ _ _ _ (JsMap_get_set_same _ _ _) Hrest).
    rewrite (deleteUser_addUser _ _ Habsent), JsMap_set_set.
    now rewrite (JsMap_set_get_id _ _ _ Hget).
Qed.

Lemma joinRoom_then_leaveRoom_witness :
  leaveRoom "R" "B" (fst (joinRoom "R" "B" (run [OpCreate 1%Z "R" "A"])))
  = (run [OpCreate 1%Z "R" "A"], Sanitized (mkRoomInfo "R" ["A"] 1 2 1%Z)).
Proof.
  refine (proj2 (joinRoom_then_leaveRoom [OpCreate 1%Z "R" "A"] "R" "B"
                   (mkRoom "R" ["A"] 1%Z 2) _ _ _)).
  - reflexivity.
  - reflexivity.
  - simpl. lia.
Defined.

(** X5. Creating and leaving undo each other: in any registry, [createRoom]
    on an id that is not in use makes a room of capacity 2 with the user as
    its only member, stamped with the clock's reading; the same user's
    [leaveRoom] then returns [null] and gives back exactly the registry from
    before. *)
Theorem createRoom_then_leaveRoom now roomId userId rooms :
  JsMap.get roomId rooms = None ->
  createRoom now roomId userId rooms
  = (JsMap.set roomId (mkRoom roomId [userId] now 2) rooms,
     Some (mkRoomInfo roomId [userId] 1 2 now))
  /\ leaveRoom roomId userId (fst (createRoom now roomId userId rooms))
     = (rooms, Null).
Proof.
  intros Habsent. rewrite (createRoom_fresh _ _ _ _ Habsent). simpl.
  split; [reflexivity |].
  rewrite (leaveRoom_last roomId userId _ (mkRoom roomId [userId] now 2)).
  - now rewrite JsMap_delete_set, (JsMap_delete_absent _ _ Habsent).
  - apply JsMap_get_set_same.
  - simpl. unfold JsSet.delete. simpl. now rewrite String.eqb_refl.
Qed.

Lemma createRoom_then_leaveRoom_witness :
  leaveRoom "S" "B" (fst (createRoom 2%Z "S" "B" (run [OpCreate 1%Z "R" "A"])))
  = (run [OpCreate 1%Z "R" "A"], Null).
Proof.
  refine (proj2 (createRoom_then_leaveRoom 2%Z "S" "B"
                   (run [OpCreate 1%Z "R" "A"]) _)).
  reflexivity.
Defined.

(** X6. After any sequence of registry calls, [getAllRooms] lists every room
    exactly once, in map order, under its own id: as many entries as
    [getRoomCount], an id is listed exactly when [roomExists] says so, and
    each entry carries the room's real member count (at least 1) and the
    capacity 2. *)
Theorem getAllRooms_lists_every_room ops :
  let listed := getAllRooms (run ops) in
  map sum_id listed = JsMap.keys (run ops)
  /\ NoDup (map sum_id listed)
  /\ length listed = getRoomCount (run ops)
  /\ (forall roomId,
        In roomId (map sum_id listed) <-> roomExists roomId (run ops) = true)
  /\ Forall (fun summary =>
               sum_userCount summary
               = length (getRoomUsers (sum_id summary) (run ops))
               /\ 1 <= sum_userCount summary
               /\ sum_maxUsers summary = 2) listed.
Proof.
  intros listed. subst listed.
  pose proof (reachable_run ops) as Hr.
  pose proof (reachable_entries _ Hr) as Hok.
  destruct (reachable_distinct _ Hr) as [Hkeys _].
  rewrite (getAllRooms_ids _ Hok). repeat split.
  - assumption.
  - unfold getAllRooms, JsMap.values, getRoomCount, JsMap.size.
    now rewrite !length_map.
  - intros Hin. now apply JsMap_has_keys.
  - intros Hex. now apply JsMap_has_keys.
  - unfold getAllRooms, JsMap.values. rewrite map_map. apply Forall_map.
    apply Forall_forall. intros [k room] Hin. simpl.
    rewrite Forall_forall in Hok. destruct (Hok _ Hin) as (Hid & Hne & Hmax).
    simpl in *. repeat split; try assumption.
    unfold getRoomUsers. rewrite Hid.
    now rewrite (JsMap_In_get _ _ _ Hkeys Hin).
Qed.

(** X7. After any sequence of registry calls, [getRoomUsers] returns the
    empty array exactly for a room that does not exist: a room that exists
    always has somebody in it. *)
Theorem getRoomUsers_empty_iff_absent ops roomId :
  getRoomUsers roomId (run ops) = [] <-> roomExists roomId (run ops) = false.
Proof.
  unfold getRoomUsers, roomExists, JsMap.has.
  destruct (JsMap.get roomId (run ops)) as [room |] eqn:Hget.
  - destruct (reachable_get _ _ _ (reachable_run ops) Hget) as (_ & Hne & _).
    split; [| discriminate]. unfold JsSet.to_array. intros Hnil.
    rewrite Hnil in Hne. simpl in Hne. lia.
  - split; reflexivity.
Qed.

(** X8. [leaveRoom] is idempotent, in any registry: called a second time for
    the same room and user it leaves the registry as the first call left it
    and returns what the first call returned ([null] when the room is gone,
    the same sanitized room otherwise). *)
Theorem leaveRoom_idempotent roomId userId rooms :
  let first := leaveRoom roomId userId rooms in
  leaveRoom roomId userId (fst first) = first.
Proof.
  intros first. subst first.
  destruct (JsMap.get roomId rooms) as [room |] eqn:Hget.
  - destruct (JsSet.delete userId (users room)) as [| u rest] eqn:D.
    + rewrite (leaveRoom_last _ _ _ _ Hget D). simpl.
      apply leaveRoom_absent, JsMap_get_delete_same.
    + assert (Hrest : JsSet.delete userId (users room) <> [])
        by (rewrite D; discriminate).
      rewrite (leaveRoom_remaining _ _ _ _ Hget Hrest). simpl.
      assert (Hgone : JsSet.has userId (users (deleteUser userId room)) = false)
        by apply JsSet_delete_has.
      rewrite (leaveRoom_remaining roomId userId _ (deleteUser userId room)).
      * rewrite (deleteUser_absent _ _ Hgone). now rewrite JsMap_set_set.
      * apply JsMap_get_set_same.
      * rewrite (JsSet_delete_absent _ _ Hgone). exact Hrest.
  - rewrite (leaveRoom_absent _ _ _ Hget). simpl.
    now apply leaveRoom_absent.
Qed.

(** X9. A member who joins again: while the room has space [joinRoom]
    changes nothing and returns the room as it is; once the member count has
    reached the capacity the member gets "Room is full" like anybody else,
    the capacity test coming before any look at who is asking. *)
Theorem joinRoom_by_member roomId userId rooms room :
  JsMap.get roomId rooms = Some room ->
  JsSet.has userId (users room) = true ->
  joinRoom roomId userId rooms
  = if Nat.ltb (JsSet.size (users room)) (maxUsers room)
    then (rooms, Sanitized (_sanitizeRoom room))
    else (rooms, Error "Room is full").
Proof.
  intros Hget Hmember.
  destruct (Nat.ltb (JsSet.size (users room)) (maxUsers room)) eqn:Hlt.
  - apply Nat.ltb_lt in Hlt. rewrite (joinRoom_space _ _ _ _ Hget Hlt).
    rewrite (addUser_present _ _ Hmember).
    now rewrite (JsMap_set_get_id _ _ _ Hget).
  - apply Nat.ltb_ge in Hlt. now apply joinRoom_full with (room := room).
Qed.

Lemma joinRoom_by_member_witness :
  joinRoom "R" "A" (run [OpCreate 1%Z "R" "A"; OpJoin "R" "B"])
  = (run [OpCreate 1%Z "R" "A"; OpJoin "R" "B"], Error "Room is full").
Proof.
  refine (joinRoom_by_member "R" "A" (run [OpCreate 1%Z "R" "A"; OpJoin "R" "B"])
            (mkRoom "R" ["A"; "B"] 1%Z 2) _ _); reflexivity.
Defined.

(** * Further facts about the router *)

Section MoreRouterFacts.

Implicit Types (st : State) (socketId roomId : string).

Lemma runEvents_cons ev rest st :
  fst (runEvents (ev :: rest) st) = fst (runEvents rest (fst (handle ev st)))
  /\ snd (runEvents (ev :: rest) st)
     = (snd (handle ev st) ++ snd (runEvents rest (fst (handle ev st))))%list.
Proof.
  simpl. destruct (handle ev st) as [st1 acts1]. simpl.
  now destruct (runEvents rest st1) as [st2 acts2].
Qed.

(** A property every handler keeps holds after any sequence of events. *)
Lemma runEvents_invariant (P : State -> Prop) :
  (forall ev st, P st -> P (fst (handle ev st))) ->
  forall evs st, P st -> P (fst (runEvents evs st)).
Proof.
  intros Hstep evs. induction evs as [| ev rest IH]; intros st HP;
    [assumption |].
  destruct (runEvents_cons ev rest st) as [-> _]. apply IH. now apply Hstep.
Qed.

(** The handlers change the registry through its three operations only. *)
Lemma handle_rooms_reachable ev st :
  reachable (roomManager st) -> reachable (roomManager (fst (handle ev st))).
Proof.
  intros Hr. destruct ev as [socketId | now socketId msg | socketId]; simpl.
  - assumption.
  - destruct msg as [roomId | roomId | roomId offer t | roomId answer t
                     | roomId candidate t | roomId mediaState | roomId];
      simpl; try assumption.
    + unfold onCreateRoom. destruct (roomExists roomId (roomManager st)).
      * pose proof (reach_step (OpJoin roomId socketId) _ Hr) as Hs.
        simpl in Hs.
        destruct (joinRoom roomId socketId (roomManager st)) as [rooms1 result].
        now destruct result.
      * pose proof (reach_step (OpCreate now roomId socketId) _ Hr) as Hs.
        simpl in Hs.
        destruct (createRoom now roomId socketId (roomManager st))
          as [rooms1 created].
        now destruct created.
    + unfold onJoinRoom.
      pose proof (reach_step (OpJoin roomId socketId) _ Hr) as Hs. simpl in Hs.
      destruct (joinRoom roomId socketId (roomManager st)) as [rooms1 result].
      simpl in Hs. destruct result; try assumption.
      pose proof (reach_step (OpCreate now roomId socketId) _ Hs) as Hc.
      simpl in Hc.
      destruct (createRoom now roomId socketId rooms1) as [rooms2 created].
      now destruct created.
  - unfold handleDisconnection.
    destruct (getUserRoom socketId (roomManager st)) as [r |]; [| assumption].
    destruct (truthy r); [| assumption].
    pose proof (reach_step (OpLeave r socketId) _ Hr) as Hs. simpl in Hs.
    now destruct (leaveRoom r socketId (roomManager st)).
Qed.

Lemma runEvents_rooms_reachable evs :
  reachable (roomManager (fst (runEvents evs init))).
Proof.
  apply (runEvents_invariant (fun st => reachable (roomManager st))).
  - apply handle_rooms_reachable.
  - constructor.
Qed.

Lemma runEvents_capacity_ok evs :
  capacity_ok (roomManager (fst (runEvents evs init))) = true.
Proof.
  apply (runEvents_invariant (fun st => capacity_ok (roomManager st) = true)).
  - apply handle_capacity_ok.
  - reflexivity.
Qed.

Lemma handle_sockets_distinct ev st :
  NoDup (JsMap.keys (userSockets st)) ->
  NoDup (JsMap.keys (userSockets (fst (handle ev st)))).
Proof.
  intros Hnd. destruct ev as [socketId | now socketId msg | socketId]; simpl.
  - now apply JsMap_set_NoDup.
  - destruct msg; simpl; try assumption.
    + unfold onCreateRoom. destruct (roomExists roomId (roomManager st)).
      * destruct (joinRoom roomId socketId (roomManager st)) as [rooms1 result].
        now destruct result.
      * destruct (createRoom now roomId socketId (roomManager st))
          as [rooms1 created].
        now destruct created.
    + unfold onJoinRoom.
      destruct (joinRoom roomId socketId (roomManager st)) as [rooms1 result].
      destruct result; try assumption.
      destruct (createRoom now roomId socketId rooms1) as [rooms2 created].
      now destruct created.
  - rewrite handleDisconnection_unregisters. now apply JsMap_delete_NoDup.
Qed.

End MoreRouterFacts.

(** * More of the router's behaviour *)

(** X10. Whatever events the server handles, in whatever order, every room
    of the registry stays within capacity: no room ever has more than two
    members (and none is empty). The listeners reach [createRoom], which has
    no capacity test, only for a room id that is not in use. *)
Theorem server_rooms_within_capacity evs :
  let rooms := roomManager (fst (runEvents evs init)) in
  capacity_ok rooms = true
  /\ no_empty_room rooms = true
  /\ (forall roomId room,
        JsMap.get roomId rooms = Some room ->
        1 <= JsSet.size (users room) <= 2 /\ maxUsers room = 2)
  /\ (forall roomId, length (getRoomUsers roomId rooms) <= 2).
Proof.
  intros rooms. subst rooms.
  pose proof (runEvents_rooms_reachable evs) as Hr.
  pose proof (runEvents_capacity_ok evs) as Hcap.
  set (rooms := roomManager (fst (runEvents evs init))) in *.
  assert (Hroom : forall roomId room,
            JsMap.get roomId rooms = Some room ->
            1 <= JsSet.size (users room) <= 2 /\ maxUsers room = 2).
  { intros roomId room Hget.
    destruct (reachable_get _ _ _ Hr Hget) as (_ & Hne & Hmax).
    apply values_forallb in Hcap. rewrite Forall_forall in Hcap.
    specialize (Hcap _ (JsMap_get_In _ _ _ Hget)). simpl in Hcap.
    unfold within_capacity in Hcap. apply Nat.leb_le in Hcap.
    rewrite Hmax in Hcap. unfold ROOM_CONFIG.MAX_USERS_DEFAULT in *. lia. }
  split; [exact Hcap |]. split; [| split; [exact Hroom |]].
  - apply forallb_values. pose proof (reachable_entries _ Hr) as Hok.
    eapply Forall_impl; [| exact Hok].
    intros entry (_ & Hne & _). unfold non_empty. now apply Nat.leb_le.
  - intros roomId. unfold getRoomUsers.
    destruct (JsMap.get roomId rooms) as [room |] eqn:Hget; [| simpl; lia].
    now apply (Hroom roomId room).
Qed.

(** No listener reads [.users] off [null] or [undefined]: from any state and
    for any sequence of events whose packets carry their payload, [joinRoom]
    after [roomExists] and [createRoom] after a [null] join find the room
    they read. *)
Lemma runEvents_never_throws evs st : ~ In Throw (snd (runEvents evs st)).
Proof.
  revert st. induction evs as [| ev rest IH]; intros st; [simpl; tauto |].
  destruct (runEvents_cons ev rest st) as [_ ->]. intros Hin.
  apply in_app_or in Hin as [Hin | Hin].
  - now apply (handle_never_throws ev st).
  - now apply (IH (fst (handle ev st))).
Qed.


(** X12. A create-room request that succeeds. For a room id that is not in
    use the router creates the room with the requester as only member, does
    [socket.join], and tells the requester alone: one "room-created" with
    the id and [users] the requester. For a room that exists and has space
    it is a join: [socket.join], then one "user-joined" to the whole group of
    the room with the member list after the join. *)
Theorem createRoom_request_success now socketId roomId st :
  let out := handleMessage now socketId (CreateRoomMsg roomId) st in
  match JsMap.get roomId (roomManager st) with
  | None =>
      out = (withRooms st (JsMap.set roomId (mkRoom roomId [socketId] now 2)
                             (roomManager st)),
             [SocketJoin socketId roomId;
              Emit (ToSelf socketId) "room-created"
                   (RoomCreatedData roomId socketId [socketId])])
  | Some room =>
      JsSet.size (users room) < maxUsers room ->
      out = (withRooms st (JsMap.set roomId (addUser socketId room)
                             (roomManager st)),
             [SocketJoin socketId roomId;
              Emit (IoTo roomId) "user-joined"
                   (UserJoinedData roomId socketId
                      (JsSet.add socketId (users room)))])
      /\ getRoomUsers roomId (roomManager (fst out))
         = JsSet.add socketId (users room)
  end.
Proof.
  intros out. subst out. simpl handleMessage. unfold onCreateRoom.
  destruct (JsMap.get roomId (roomManager st)) as [room |] eqn:Hget.
  - intros Hspace.
    assert (Hex : roomExists roomId (roomManager st) = true)
      by (apply roomExists_get; eauto).
    rewrite Hex, (joinRoom_space _ _ _ _ Hget Hspace). simpl.
    split; [reflexivity |]. unfold getRoomUsers.
    now rewrite JsMap_get_set_same.
  - assert (Hex : roomExists roomId (roomManager st) = false)
      by now apply roomExists_absent.
    rewrite Hex, (createRoom_fresh _ _ _ _ Hget). reflexivity.
Qed.

Lemma createRoom_request_success_witness :
  snd (handleMessage 2%Z "B" (CreateRoomMsg "R")
         (mkState [("R", mkRoom "R" ["A"] 1%Z 2)] []))
  = [SocketJoin "B" "R";
     Emit (IoTo "R") "user-joined" (UserJoinedData "R" "B" ["A"; "B"])].
Proof.
  refine (f_equal snd (proj1 (createRoom_request_success 2%Z "B" "R"
            (mkState [("R", mkRoom "R" ["A"] 1%Z 2)] []) _))).
  simpl. lia.
Defined.

(** X14. Registrations. [handleConnection] registers the socket under its
    id and leaves the rooms alone; [handleDisconnection] always ends with the
    socket unregistered; neither touches another socket's registration; and
    after any sequence of events no socket is registered twice, so
    [connectedUsers] counts sockets. *)
Theorem registrations socketId st :
  JsMap.get socketId (userSockets (fst (handleConnection socketId st)))
  = Some socketId
  /\ roomManager (fst (handleConnection socketId st)) = roomManager st
  /\ JsMap.get socketId (userSockets (fst (handleDisconnection socketId st)))
     = None
  /\ (forall other,
        other <> socketId ->
        JsMap.get other (userSockets (fst (handleConnection socketId st)))
        = JsMap.get other (userSockets st)
        /\ JsMap.get other (userSockets (fst (handleDisconnection socketId st)))
           = JsMap.get other (userSockets st))
  /\ (forall evs,
        NoDup (JsMap.keys (userSockets (fst (runEvents evs init))))).
Proof.
  split; [| split; [| split; [| split]]].
  - simpl. apply JsMap_get_set_same.
  - reflexivity.
  - rewrite handleDisconnection_unregisters. apply JsMap_get_delete_same.
  - intros other Hne. split.
    + simpl. now apply JsMap_get_set_other.
    + rewrite handleDisconnection_unregisters.
      now apply JsMap_get_delete_other.
  - intros evs.
    apply (runEvents_invariant
             (fun st' => NoDup (JsMap.keys (userSockets st')))).
    + apply handle_sockets_distinct.
    + constructor.
Qed.

(** * Requests, answers and the registry *)

Section RequestFacts.

Implicit Types (st : State) (socketId roomId : string).

(** The members after [leaveRoom] are the members before, minus the user. *)
Lemma leaveRoom_getRoomUsers roomId userId rooms :
  getRoomUsers roomId (fst (leaveRoom roomId userId rooms))
  = JsSet.delete userId (getRoomUsers roomId rooms).
Proof.
  unfold getRoomUsers at 2.
  destruct (JsMap.get roomId rooms) as [room |] eqn:Hget.
  - destruct (JsSet.delete userId (users room)) as [| u rest] eqn:D.
    + rewrite (leaveRoom_last _ _ _ _ Hget D). simpl.
      unfold getRoomUsers. rewrite JsMap_get_delete_same.
      unfold JsSet.to_array. now rewrite D.
    + assert (Hrest : JsSet.delete userId (users room) <> [])
        by (rewrite D; discriminate).
      rewrite (leaveRoom_remaining _ _ _ _ Hget Hrest). simpl.
      unfold getRoomUsers. rewrite JsMap_get_set_same. simpl.
      unfold JsSet.to_array. now rewrite D.
  - rewrite (leaveRoom_absent _ _ _ Hget). simpl.
    unfold getRoomUsers. now rewrite Hget.
Qed.

(** The two room listeners, by what [joinRoom] or [createRoom] found. *)
Lemma onCreateRoom_cases now socketId roomId st :
  (exists room,
     JsMap.get roomId (roomManager st) = Some room
     /\ maxUsers room <= JsSet.size (users room)
     /\ onCreateRoom now socketId roomId st
        = (st, [Emit (ToSelf socketId) "join-error"
                     (JoinErrorData "Room is full")]))
  \/ (exists users',
        In socketId users'
        /\ getRoomUsers roomId
             (roomManager (fst (onCreateRoom now socketId roomId st))) = users'
        /\ (snd (onCreateRoom now socketId roomId st)
            = [SocketJoin socketId roomId;
               Emit (IoTo roomId) "user-joined"
                    (UserJoinedData roomId socketId users')]
            \/ snd (onCreateRoom now socketId roomId st)
               = [SocketJoin socketId roomId;
                  Emit (ToSelf socketId) "room-created"
                       (RoomCreatedData roomId socketId users')])).
Proof.
  unfold onCreateRoom.
  destruct (JsMap.get roomId (roomManager st)) as [room |] eqn:Hget.
  - assert (Hex : roomExists roomId (roomManager st) = true)
      by (apply roomExists_get; eauto).
    rewrite Hex. destruct (Nat.leb (maxUsers room) (JsSet.size (users room)))
      eqn:Hfull.
    + apply Nat.leb_le in Hfull. left. exists room.
      rewrite (joinRoom_full _ _ _ _ Hget Hfull), withRooms_same. auto.
    + apply Nat.leb_gt in Hfull. right.
      rewrite (joinRoom_space _ _ _ _ Hget Hfull). simpl.
      exists (JsSet.add socketId (users room)). split; [apply JsSet_add_In |].
      unfold getRoomUsers. rewrite JsMap_get_set_same. auto.
  - assert (Hex : roomExists roomId (roomManager st) = false)
      by now apply roomExists_absent.
    rewrite Hex, (createRoom_fresh _ _ _ _ Hget). simpl. right.
    exists [socketId]. split; [now left |].
    unfold getRoomUsers. rewrite JsMap_get_set_same. auto.
Qed.

Lemma onJoinRoom_cases now socketId roomId st :
  (exists room,
     JsMap.get roomId (roomManager st) = Some room
     /\ maxUsers room <= JsSet.size (users room)
     /\ onJoinRoom now socketId roomId st
        = (st, [Emit (ToSelf socketId) "join-error"
                     (JoinErrorData "Room is full")]))
  \/ (exists users',
        In socketId users'
        /\ getRoomUsers roomId
             (roomManager (fst (onJoinRoom now socketId roomId st))) = users'
        /\ snd (onJoinRoom now socketId roomId st)
           = [SocketJoin socketId roomId;
              Emit (IoTo roomId) "user-joined"
                   (UserJoinedData roomId socketId users')]).
Proof.
  unfold onJoinRoom.
  destruct (JsMap.get roomId (roomManager st)) as [room |] eqn:Hget.
  - destruct (Nat.leb (maxUsers room) (JsSet.size (users room))) eqn:Hfull.
    + apply Nat.leb_le in Hfull. left. exists room.
      rewrite (joinRoom_full _ _ _ _ Hget Hfull), withRooms_same. auto.
    + apply Nat.leb_gt in Hfull. right.
      rewrite (joinRoom_space _ _ _ _ Hget Hfull). simpl.
      exists (JsSet.add socketId (users room)). split; [apply JsSet_add_In |].
      unfold getRoomUsers. rewrite JsMap_get_set_same. auto.
  - rewrite (joinRoom_absent _ _ _ Hget), (createRoom_fresh _ _ _ _ Hget).
    simpl. right. exists [socketId]. split; [now left |].
    unfold getRoomUsers. rewrite JsMap_get_set_same. auto.
Qed.

End RequestFacts.

(** Closes a goal about membership in a short, explicit action list. *)
Ltac in_actions H :=
  repeat (destruct H as [H | H]; [try discriminate H | ]);
  try contradiction.

(** X15. A disconnection leaves one room only. When [getUserRoom] finds a
    room with a non-empty id, the socket is taken out of that room (the other
    members stay), one "user-left" naming the socket and the room goes to the
    room's group without the socket, and every other room is left as it was,
    also one that still lists the socket as a member. *)
Theorem handleDisconnection_leaves_first_room socketId st roomId :
  getUserRoom socketId (roomManager st) = Some roomId ->
  truthy roomId = true ->
  let out := handleDisconnection socketId st in
  snd out
  = [Emit (SocketTo socketId roomId) "user-left" (UserLeftData socketId roomId)]
  /\ ~ In socketId (getRoomUsers roomId (roomManager (fst out)))
  /\ (forall x,
        x <> socketId ->
        (In x (getRoomUsers roomId (roomManager (fst out)))
         <-> In x (getRoomUsers roomId (roomManager st))))
  /\ (forall other,
        other <> roomId ->
        JsMap.get other (roomManager (fst out))
        = JsMap.get other (roomManager st)).
Proof.
  intros Hfound Htruthy out. subst out.
  rewrite (handleDisconnection_in_room _ _ _ Hfound Htruthy). simpl.
  rewrite leaveRoom_getRoomUsers.
  split; [reflexivity | split; [| split]].
  - intros Hin. apply JsSet_delete_In in Hin. now destruct Hin.
  - intros x Hne. rewrite JsSet_delete_In. tauto.
  - intros other Hne. now apply leaveRoom_get_other.
Qed.

Lemma handleDisconnection_leaves_first_room_witness :
  JsMap.get "S"
    (roomManager (fst (handleDisconnection "A"
       (mkState [("R", mkRoom "R" ["A"; "B"] 1%Z 2);
                 ("S", mkRoom "S" ["A"] 2%Z 2)] [("A", "A")]))))
  = Some (mkRoom "S" ["A"] 2%Z 2).
Proof.
  refine (proj2 (proj2 (proj2
    (handleDisconnection_leaves_first_room "A"
       (mkState [("R", mkRoom "R" ["A"; "B"] 1%Z 2);
                 ("S", mkRoom "S" ["A"] 2%Z 2)] [("A", "A")]) "R" _ _))) "S" _).
  - reflexivity.
  - reflexivity.
  - discriminate.
Defined.

(** X16. The transport group follows the registry: whenever a handler does
    [socket.join(roomId)] for a socket, that socket is a member of that room
    in the registry the handler leaves behind. *)
Theorem socket_join_means_member ev st socketId roomId :
  In (SocketJoin socketId roomId) (snd (handle ev st)) ->
  In socketId (getRoomUsers roomId (roomManager (fst (handle ev st)))).
Proof.
  destruct ev as [sid | now sid msg | sid]; simpl.
  - contradiction.
  - destruct msg as [r | r | r offer t | r answer t | r candidate t
                     | r mediaState | r]; simpl.
    + destruct (onCreateRoom_cases now sid r st)
        as [(room & _ & _ & ->) | (users' & Hin & <- & [-> | ->])];
        intros H; in_actions H; now injection H as <- <-.
    + destruct (onJoinRoom_cases now sid r st)
        as [(room & _ & _ & ->) | (users' & Hin & <- & ->)];
        intros H; in_actions H; now injection H as <- <-.
    + unfold _forwardSignalingMessage.
      destruct t as [t |]; [destruct (truthy t) |]; intros H; in_actions H.
    + unfold _forwardSignalingMessage.
      destruct t as [t |]; [destruct (truthy t) |]; intros H; in_actions H.
    + unfold _forwardSignalingMessage.
      destruct t as [t |]; [destruct (truthy t) |]; intros H; in_actions H.
    + intros H; in_actions H.
    + intros H; in_actions H.
  - unfold handleDisconnection.
    destruct (getUserRoom sid (roomManager st)) as [r |]; [| contradiction].
    destruct (truthy r); [| contradiction].
    destruct (leaveRoom r sid (roomManager st)). simpl.
    intros H; in_actions H.
Qed.

Lemma socket_join_means_member_witness :
  In "B" (getRoomUsers "R"
            (roomManager (fst (handle (Received 2%Z "B" (JoinRoomMsg "R"))
               (mkState [("R", mkRoom "R" ["A"] 1%Z 2)] []))))).
Proof.
  refine (socket_join_means_member (Received 2%Z "B" (JoinRoomMsg "R"))
            (mkState [("R", mkRoom "R" ["A"] 1%Z 2)] []) "B" "R" _).
  simpl. tauto.
Defined.

(** X17. A refusal changes nothing. Whenever a handler emits "join-error",
    that is all it does: the one emission goes to the requesting socket
    alone, its [error] is "Room is full", there is no [socket.join], and the
    registry and the registrations are exactly as before. *)
Theorem join_error_means_unchanged ev st to data :
  In (Emit to "join-error" data) (snd (handle ev st)) ->
  fst (handle ev st) = st
  /\ snd (handle ev st) = [Emit to "join-error" data]
  /\ data = JoinErrorData "Room is full"
  /\ exists now socketId msg,
       ev = Received now socketId msg /\ to = ToSelf socketId.
Proof.
  destruct ev as [sid | now sid msg | sid]; simpl.
  - contradiction.
  - destruct msg as [r | r | r offer t | r answer t | r candidate t
                     | r mediaState | r]; simpl.
    + destruct (onCreateRoom_cases now sid r st)
        as [(room & _ & _ & ->) | (users' & Hin & _ & [-> | ->])];
        intros H; in_actions H.
      injection H as <- <-. repeat split. now exists now, sid, (CreateRoomMsg r).
    + destruct (onJoinRoom_cases now sid r st)
        as [(room & _ & _ & ->) | (users' & Hin & _ & ->)];
        intros H; in_actions H.
      injection H as <- <-. repeat split. now exists now, sid, (JoinRoomMsg r).
    + unfold _forwardSignalingMessage.
      destruct t as [t |]; [destruct (truthy t) |]; intros H; in_actions H.
    + unfold _forwardSignalingMessage.
      destruct t as [t |]; [destruct (truthy t) |]; intros H; in_actions H.
    + unfold _forwardSignalingMessage.
      destruct t as [t |]; [destruct (truthy t) |]; intros H; in_actions H.
    + intros H; in_actions H.
    + intros H; in_actions H.
  - unfold handleDisconnection.
    destruct (getUserRoom sid (roomManager st)) as [r |]; [| contradiction].
    destruct (truthy r); [| contradiction].
    destruct (leaveRoom r sid (roomManager st)). simpl.
    intros H; in_actions H.
Qed.

Lemma join_error_means_unchanged_witness :
  fst (handle (Received 3%Z "C" (JoinRoomMsg "R"))
         (mkState [("R", mkRoom "R" ["A"; "B"] 1%Z 2)] []))
  = mkState [("R", mkRoom "R" ["A"; "B"] 1%Z 2)] [].
Proof.
  refine (proj1 (join_error_means_unchanged (Received 3%Z "C" (JoinRoomMsg "R"))
            (mkState [("R", mkRoom "R" ["A"; "B"] 1%Z 2)] [])
            (ToSelf "C") (JoinErrorData "Room is full") _)).
  simpl. tauto.
Defined.

(** X18. What [getStats] and the [GET /rooms] route report after any
    sequence of events agrees with itself and with the capacity: [totalRooms]
    and the route's [count] are the length of the room list, no room id is
    listed twice, every listed room has at least one member and no more than
    its capacity of 2, and [connectedUsers] is the number of registrations. *)
Theorem getStats_is_consistent evs :
  let st := fst (runEvents evs init) in
  let stats := getStats st in
  totalRooms stats = length (stats_rooms stats)
  /\ roomsRoute st = (stats_rooms stats, totalRooms stats)
  /\ NoDup (map sum_id (stats_rooms stats))
  /\ Forall (fun summary =>
               1 <= sum_userCount summary <= sum_maxUsers summary
               /\ sum_maxUsers summary = 2) (stats_rooms stats)
  /\ connectedUsers stats = length (JsMap.keys (userSockets st)).
Proof.
  intros st stats. subst stats st.
  pose proof (runEvents_rooms_reachable evs) as Hr.
  pose proof (runEvents_capacity_ok evs) as Hcap.
  set (st := fst (runEvents evs init)) in *.
  pose proof (reachable_entries _ Hr) as Hok.
  destruct (reachable_distinct _ Hr) as [Hkeys _].
  assert (Hlen : getRoomCount (roomManager st)
                 = length (getAllRooms (roomManager st))).
  { unfold getAllRooms, JsMap.values, getRoomCount, JsMap.size.
    now rewrite !length_map. }
  unfold getStats, roomsRoute. simpl.
  split; [exact Hlen | split; [now rewrite Hlen | split; [| split]]].
  - now rewrite (getAllRooms_ids _ Hok).
  - unfold getAllRooms, JsMap.values. rewrite map_map. apply Forall_map.
    apply Forall_forall. intros [k room] Hin. simpl.
    rewrite Forall_forall in Hok. destruct (Hok _ Hin) as (_ & Hne & Hmax).
    apply values_forallb in Hcap. rewrite Forall_forall in Hcap.
    specialize (Hcap _ Hin). simpl in *.
    unfold within_capacity in Hcap. apply Nat.leb_le in Hcap.
    unfold ROOM_CONFIG.MAX_USERS_DEFAULT in Hmax. lia.
  - unfold JsMap.size, JsMap.keys. now rewrite length_map.
Qed.

(** X19. Leaving frees a seat. After any sequence of registry calls, when a
    member leaves a room that is within its capacity and keeps another
    member, a [joinRoom] by somebody else succeeds straight away, however
    full the room was: the newcomer is added after the members who stayed. *)
Theorem leaveRoom_frees_a_seat ops roomId userId newUserId room :
  JsMap.get roomId (run ops) = Some room ->
  In userId (users room) ->
  2 <= JsSet.size (users room) <= maxUsers room ->
  JsSet.has newUserId (users room) = false ->
  let left := fst (leaveRoom roomId userId (run ops)) in
  exists info,
    snd (joinRoom roomId newUserId left) = Sanitized info
    /\ info_users info
       = (JsSet.delete userId (users room) ++ [newUserId])%list
    /\ info_userCount info = JsSet.size (users room)
    /\ getRoomUsers roomId (fst (joinRoom roomId newUserId left))
       = info_users info.
Proof.
  intros Hget Hin [Htwo Hcap] Hnew left. subst left.
  pose proof (reachable_room_distinct _ _ _ (reachable_run ops) Hget) as Hnd.
  pose proof (JsSet_delete_size_member _ _ Hnd Hin) as Hsize.
  assert (Hrest : JsSet.delete userId (users room) <> []).
  { intros Hnil. rewrite Hnil in Hsize. simpl in Hsize. lia. }
  rewrite (leaveRoom_remaining _ _ _ _ Hget Hrest). simpl.
  assert (Hspace : JsSet.size (users (deleteUser userId room))
                   < maxUsers (deleteUser userId room)) by (simpl; lia).
  rewrite (joinRoom_space roomId newUserId _ _ (JsMap_get_set_same _ _ _) Hspace).
  assert (Hstill : JsSet.has newUserId (JsSet.delete userId (users room)) = false).
  { destruct (JsSet.has newUserId (JsSet.delete userId (users room))) eqn:E;
      [| reflexivity].
    apply JsSet_has_In, JsSet_delete_In in E. destruct E as [E _].
    apply JsSet_has_In in E. congruence. }
  exists (_sanitizeRoom (addUser newUserId (deleteUser userId room))). simpl.
  unfold JsSet.add. rewrite Hstill. repeat split.
  - unfold JsSet.size in *. rewrite length_app. simpl. lia.
  - unfold getRoomUsers. rewrite JsMap_get_set_same. simpl.
    unfold JsSet.add. now rewrite Hstill.
Qed.

Lemma leaveRoom_frees_a_seat_witness :
  exists info,
    snd (joinRoom "R" "D"
           (fst (leaveRoom "R" "A" (run [OpCreate 1%Z "R" "A"; OpJoin "R" "B"]))))
    = Sanitized info
    /\ info_users info = ["B"; "D"].
Proof.
  destruct (leaveRoom_frees_a_seat [OpCreate 1%Z "R" "A"; OpJoin "R" "B"]
              "R" "A" "D" (mkRoom "R" ["A"; "B"] 1%Z 2))
    as (info & Hout & Husers & _).
  - reflexivity.
  - simpl. tauto.
  - simpl. lia.
  - reflexivity.
  - exists info. split; [exact Hout | exact Husers].
Defined.
